(** * Discovergy smart-meter integration: config flow and meter sensors

    A shallow embedding of
    [homeassistant/components/discovergy/config_flow.py] and
    [homeassistant/components/discovergy/sensor.py].

    Python exceptions are modelled by an error monad, the external
    [PyDiscovergy] client by a record of its three calls, Python [int]s
    by [Z], Python [float]s by the kernel's binary64 numbers, and the
    dictionaries of the readings feed by [gmap]s. *)

From Stdlib Require Import ZArith List Permutation Sorted.
From Stdlib Require Import Floats.PrimFloat Floats.SpecFloat Floats.FloatOps.
From stdpp Require Import base option list gmap strings.

Local Open Scope string_scope.
Local Open Scope list_scope.
Local Open Scope Z_scope.

(** ** Exceptions *)

(** The exception classes that matter to the two modules: the two classes
    [config_flow.py] declares, the host's [AbortFlow], the three classes
    [async_update] catches, [OverflowError] (raised by [int * float] when
    the integer exceeds the binary64 range), the transport faults of the
    HTTP client, and any other class, by name, that derives from none of
    the former. All of them derive from [Exception]. *)
Inductive exn : Type :=
| CannotConnect
| InvalidAuth
| AbortFlow (reason : string)
| ValueError
| KeyError
| IndexError
| OverflowError
| ConnectionError
| TimeoutError
| OtherError (cls : string).

(** A transport-level fault of the login call: the connection could not be
    made or timed out. *)
Definition is_transport_fault (e : exn) : bool :=
  match e with
  | ConnectionError | TimeoutError => true
  | _ => false
  end.

(** A computation either returns a value or raises. *)
Inductive result (A : Type) : Type :=
| Ok (a : A)
| Raise (e : exn).
Arguments Ok {A} a.
Arguments Raise {A} e.

#[global] Instance result_ret : MRet result := fun A a => Ok a.
#[global] Instance result_bind : MBind result := fun A B k m =>
  match m with
  | Ok a => k a
  | Raise e => Raise e
  end.

(** [d[key]] on a dictionary: [KeyError] when the key is absent. *)
Definition getitem {A : Type} (field : option A) : result A :=
  match field with
  | Some a => Ok a
  | None => Raise KeyError
  end.

(** [l[i]] on a list: [IndexError] when out of range (only non-negative
    indices are used). *)
Definition index {A : Type} (l : list A) (i : nat) : result A :=
  match l !! i with
  | Some a => Ok a
  | None => Raise IndexError
  end.

(** A list comprehension whose element expression can raise: elements are
    evaluated left to right and the first exception ends the evaluation. *)
Fixpoint comprehension {A B : Type} (f : A -> result B) (l : list A)
  : result (list B) :=
  match l with
  | [] => Ok []
  | a :: l' => b ← f a; bs ← comprehension f l'; Ok (b :: bs)
  end.

(** ** Python numbers *)

(** [float(z)] for a Python [int]: the nearest binary64 number, ties to
    even; [OverflowError] when that is out of range. *)
Definition float_of_int (z : Z) : result float :=
  match binary_normalize prec emax z 0 false with
  | S754_infinity _ | S754_nan => Raise OverflowError
  | sf => Ok (SF2Prim sf)
  end.

(** [a / b] on two Python [int]s that binary64 represents exactly (all the
    module uses), [b] not zero: the correctly rounded quotient. *)
Definition int_truediv (a b : Z) : float :=
  (SF2Prim (binary_normalize prec emax a 0 false)
   / SF2Prim (binary_normalize prec emax b 0 false))%float.

(** [z * f] for a Python [int] and a Python [float]. *)
Definition int_mul_float (z : Z) (f : float) : result float :=
  x ← float_of_int z; Ok (x * f)%float.

(** ** The external API client *)

(** One raw sample of the readings feed, a dictionary with the keys
    ["time"] and ["values"]; a key that is absent is [None]. *)
Record reading : Type := {
  time : option Z;
  values : option (gmap string Z)
}.

(** One entry of the account's meter listing; the module reads it with
    [d.get(...)], which gives [None] for an absent key. *)
Record meter : Type := {
  meterId : option string;
  location : option string;
  measurementType : option string
}.

(** The [PyDiscovergy] client, as the three calls the integration makes.
    [get_meters] returns [None] or a list. *)
Record PyDiscovergy : Type := {
  login : string -> string -> result bool;
  get_meters : result (option (list meter));
  get_readings :
    option string -> Z -> Z -> string -> string -> result (list reading)
}.

(** ** config_flow.py *)

Module ConfigFlow.

(** The form's data, as [STEP_USER_DATA_SCHEMA] validates it. *)
Record user_input : Type := {
  CONF_USERNAME : string;
  CONF_PASSWORD : string
}.

Inductive flow_result : Type :=
| ShowForm (step_id : string) (errors : option (gmap string string))
| CreateEntry (title : string) (data : user_input).

(** A persisted configuration entry. *)
Record config_entry : Type := {
  unique_id : option string;
  entry_title : string;
  entry_data : user_input
}.

(** The flow handler's own state. *)
Record flow : Type := { flow_unique_id : option string }.

Definition new_flow : flow := {| flow_unique_id := None |}.

(** Modelled from the spec: the host's [async_set_unique_id], absent from
    the sources; it registers the identity token on the flow. *)
Definition async_set_unique_id (self : flow) (uid : string) : flow :=
  {| flow_unique_id := Some uid |}.

Definition has_unique_id (uid : option string) (e : config_entry) : bool :=
  bool_decide (unique_id e = uid).

(** Modelled from the spec: the host's [_abort_if_unique_id_configured],
    absent from the sources; if an entry with the flow's identity already
    exists, setup aborts. *)
Definition _abort_if_unique_id_configured
    (self : flow) (entries : list config_entry) : result unit :=
  if existsb (has_unique_id (flow_unique_id self)) entries
  then Raise (AbortFlow "already_configured")
  else Ok tt.

Definition _validate_credentials
    (api : PyDiscovergy) (username password : string) : result bool :=
  login_response ← login api username password;
  if negb login_response then Ok false else Ok true.

Definition _validate_input (api : PyDiscovergy) (data : user_input)
  : result bool :=
  valid ← _validate_credentials api (CONF_USERNAME data) (CONF_PASSWORD data);
  if negb valid then Raise InvalidAuth else Ok true.

Definition unique_id_of (data : user_input) : string :=
  "discovergy_smart_meter_" +:+ CONF_USERNAME data.

Definition async_step_user
    (self : flow) (entries : list config_entry) (api : PyDiscovergy)
    (input : option user_input) : flow * result flow_result :=
  match input with
  | None => (self, Ok (ShowForm "user" None))
  | Some data =>
      let errors : gmap string string := ∅ in
      match _validate_input api data with
      | Raise CannotConnect =>
          (self, Ok (ShowForm "user"
                       (Some (<["base" := "cannot_connect"]> errors))))
      | Raise InvalidAuth =>
          (self, Ok (ShowForm "user"
                       (Some (<["base" := "invalid_auth"]> errors))))
      | Raise _ =>
          (self, Ok (ShowForm "user"
                       (Some (<["base" := "unknown"]> errors))))
      | Ok _ =>
          let self := async_set_unique_id self (unique_id_of data) in
          (self,
           _ ← _abort_if_unique_id_configured self entries;
           Ok (CreateEntry "Discovergy Smart Meter" data))
      end
  end.

(** What the user sees at the end of one submission of the form. *)
Inductive outcome : Type :=
| Form (errors : option (gmap string string))
| Created (e : config_entry)
| Aborted (reason : string)
| Crashed (e : exn).

(** Modelled from the spec: the host's flow manager, absent from the
    sources. It runs the step on a fresh flow, persists the entry of a
    [CreateEntry] result under the flow's identity, and turns [AbortFlow]
    into an abort that creates nothing. *)
Definition setup
    (entries : list config_entry) (api : PyDiscovergy) (data : user_input)
  : list config_entry * outcome :=
  match async_step_user new_flow entries api (Some data) with
  | (self, Ok (CreateEntry title d)) =>
      let e := {| unique_id := flow_unique_id self;
                  entry_title := title; entry_data := d |} in
      (entries ++ [e], Created e)
  | (_, Ok (ShowForm _ errors)) => (entries, Form errors)
  | (_, Raise (AbortFlow reason)) => (entries, Aborted reason)
  | (_, Raise e) => (entries, Crashed e)
  end.

End ConfigFlow.

(** ** sensor.py *)

Module Sensor.

Inductive sensor_kind : Type := CONF_ENERGY | CONF_POWER.

#[global] Instance sensor_kind_eq_dec : EqDecision sensor_kind.
Proof. solve_decision. Defined.

Definition DEFAULT_SENSORS : list sensor_kind := [CONF_ENERGY; CONF_POWER].

Record sensor_description : Type := {
  name : string;
  unit : string;
  device_class : string;
  api_name : string;
  scale : float
}.

(** The table [SENSOR_TYPES]; the unit and device-class constants of the
    host are the strings the spec gives for them. *)
Definition SENSOR_TYPES (t : sensor_kind) : sensor_description :=
  match t with
  | CONF_ENERGY =>
      {| name := "Energy Consumed"; unit := "kWh";
         device_class := "energy"; api_name := "energy";
         scale := int_truediv 1 (10 ^ 10) |}
  | CONF_POWER =>
      {| name := "Power"; unit := "W";
         device_class := "power"; api_name := "power";
         scale := int_truediv 1 1000 |}
  end.

Record DiscovergyMeterSensor : Type := {
  username : string;
  password : string;
  meter_id : option string;
  _state : option float;
  _attrs : option string;   (* the one attribute, ["location"] *)
  _name : string;
  _unit_of_measurement : string;
  _scale : float;
  sensor_type : sensor_kind;
  api_sensor_type : string
}.

Definition __init__
    (username password : string) (meter_id : option string)
    (sensor_type : sensor_kind) (location : option string)
  : DiscovergyMeterSensor :=
  {| username := username;
     password := password;
     meter_id := meter_id;
     _state := None;
     _attrs := location;
     _name := name (SENSOR_TYPES sensor_type);
     _unit_of_measurement := unit (SENSOR_TYPES sensor_type);
     _scale := scale (SENSOR_TYPES sensor_type);
     sensor_type := sensor_type;
     api_sensor_type := api_name (SENSOR_TYPES sensor_type) |}.

Definition state (self : DiscovergyMeterSensor) : option float :=
  _state self.

Definition set_state (self : DiscovergyMeterSensor) (st : float)
  : DiscovergyMeterSensor :=
  {| username := username self;
     password := password self;
     meter_id := meter_id self;
     _state := Some st;
     _attrs := _attrs self;
     _name := _name self;
     _unit_of_measurement := _unit_of_measurement self;
     _scale := _scale self;
     sensor_type := sensor_type self;
     api_sensor_type := api_sensor_type self |}.

(** *** The sampler *)

Definition sample : Type := Z * gmap string Z.

(** [list.sort(key=lambda x: x[0], reverse=True)]: a stable sort by
    timestamp, descending; samples with equal timestamps keep the order
    of the feed. *)
Fixpoint insert_desc (x : sample) (l : list sample) : list sample :=
  match l with
  | [] => [x]
  | y :: l' => if x.1 <? y.1 then y :: insert_desc x l' else x :: l
  end.

Definition sort_desc (l : list sample) : list sample :=
  foldr insert_desc [] l.

(** [(d["time"], d["values"])] *)
Definition time_and_values (d : reading) : result sample :=
  t ← getitem (time d); v ← getitem (values d); Ok (t, v).

(** [[(d["time"], d["values"]) for d in sensor_data]], then the sort. *)
Definition time_sorted (sensor_data : list reading) : result (list sample) :=
  data ← comprehension time_and_values sensor_data;
  Ok (sort_desc data).

(** The raw integer the sensor reports on: the newest sample's value, or
    for the energy sensor its difference with the one before. *)
Definition select_reading
    (self : DiscovergyMeterSensor) (time_sorted_data : list sample)
  : result Z :=
  match sensor_type self with
  | CONF_ENERGY =>
      newest ← (s ← index time_sorted_data 0;
                getitem (s.2 !! api_sensor_type self));
      previous ← (s ← index time_sorted_data 1;
                  getitem (s.2 !! api_sensor_type self));
      Ok (newest - previous)
  | CONF_POWER =>
      s ← index time_sorted_data 0;
      getitem (s.2 !! api_sensor_type self)
  end.

(** The body of the [try] block of [async_update], up to the value that
    is assigned to [_state]; [now] is the clock, in milliseconds. *)
Definition new_state
    (self : DiscovergyMeterSensor) (api : PyDiscovergy) (now : Z)
  : result float :=
  _ ← login api (username self) (password self);
  sensor_data ← get_readings api (meter_id self)
                  (now - 6 * 60 * 1000) now "three_minutes"
                  (api_sensor_type self);
  time_sorted_data ← time_sorted sensor_data;
  reading ← select_reading self time_sorted_data;
  int_mul_float reading (_scale self).

(** How one call of [async_update] ends. *)
Inductive update_outcome : Type :=
| Published                 (* the state was assigned and logged *)
| Warned                    (* the exception was caught, a warning logged *)
| Propagated (e : exn).     (* the exception left [async_update] *)

(** [except (ValueError, KeyError, IndexError)] *)
Definition caught (e : exn) : bool :=
  match e with
  | ValueError | KeyError | IndexError => true
  | _ => false
  end.

Definition async_update
    (self : DiscovergyMeterSensor) (api : PyDiscovergy) (now : Z)
  : DiscovergyMeterSensor * update_outcome :=
  match new_state self api now with
  | Ok st => (set_state self st, Published)
  | Raise e => if caught e then (self, Warned) else (self, Propagated e)
  end.

(** The host polls a sensor again and again: one API behaviour and one
    clock value per poll. *)
Definition poll_all
    (self : DiscovergyMeterSensor) (polls : list (PyDiscovergy * Z))
  : DiscovergyMeterSensor :=
  foldl (fun s p => (async_update s p.1 p.2).1) self polls.

(** *** Discovery *)

(** Assignment [d[k] = v] on a dictionary kept in insertion order: a key
    already present keeps its place and takes the new value. *)
Fixpoint dict_set {K V : Type} `{EqDecision K}
    (k : K) (v : V) (d : list (K * V)) : list (K * V) :=
  match d with
  | [] => [(k, v)]
  | (k', v') :: d' =>
      if decide (k = k') then (k, v) :: d' else (k', v') :: dict_set k v d'
  end.

Record setup_result : Type := {
  success : bool;                          (* the returned value *)
  added : list DiscovergyMeterSensor       (* given to [async_add_entities] *)
}.

Section Discovery.

(** The constant of [const.py], which is not among the sources. *)
Variable SUPPORTED_METER_TYPES : list string.

(** [d.get("measurementType") in SUPPORTED_METER_TYPES] *)
Definition supported (d : meter) : bool :=
  match measurementType d with
  | Some t => bool_decide (t ∈ SUPPORTED_METER_TYPES)
  | None => false
  end.

(** The dictionary comprehension: meter id to location, over the
    supported meters. *)
Definition meters_by_id (listing : list meter)
  : list (option string * option string) :=
  foldl (fun acc d =>
           if supported d then dict_set (meterId d) (location d) acc
           else acc)
        [] listing.

(** The two nested loops that build [entities]. *)
Definition entities_for
    (username password : string)
    (account_meters_info : list (option string * option string))
  : list DiscovergyMeterSensor :=
  '(meter_id, meter_location) ← account_meters_info;
  sensor_type ← DEFAULT_SENSORS;
  [__init__ username password meter_id sensor_type meter_location].

Definition async_setup_entry
    (api : PyDiscovergy) (config_entry : ConfigFlow.config_entry)
  : result setup_result :=
  let username :=
    ConfigFlow.CONF_USERNAME (ConfigFlow.entry_data config_entry) in
  let password :=
    ConfigFlow.CONF_PASSWORD (ConfigFlow.entry_data config_entry) in
  _ ← login api username password;
  account_meters_info ← get_meters api;
  match account_meters_info with
  | None | Some [] => Ok {| success := false; added := [] |}
  | Some listing =>
      let account_meters_info := meters_by_id listing in
      let entities := entities_for username password account_meters_info in
      Ok {| success := true; added := entities |}
  end.

End Discovery.

End Sensor.

(** ** Vocabulary of the properties *)

Module SamplerSpec.
Import Sensor.

(** What a sample says about one measurement kind: its timestamp and
    its value, when all three fields are there. *)
Definition measurement (kind : string) (d : reading) : option (Z * Z) :=
  t ← time d; vs ← values d; v ← vs !! kind; Some (t, v).

(** A sensor whose derived attributes are the ones of its row of
    [SENSOR_TYPES]. *)
Definition consistent (self : DiscovergyMeterSensor) : Prop :=
  _scale self = scale (SENSOR_TYPES (sensor_type self))
  /\ api_sensor_type self = api_name (SENSOR_TYPES (sensor_type self)).

(** The API answers the poll that [self] makes at time [now]: the login
    call returns, and the readings call, with the arguments of
    [async_update], returns the feed [l]. *)
Definition answers
    (api : PyDiscovergy) (self : DiscovergyMeterSensor) (now : Z)
    (l : list reading) : Prop :=
  (exists b, login api (username self) (password self) = Ok b)
  /\ get_readings api (meter_id self) (now - 6 * 60 * 1000) now
       "three_minutes" (api_sensor_type self) = Ok l.

(** All three fields are there for the kind the sensor reports. *)
Definition complete (self : DiscovergyMeterSensor) (d : reading) : Prop :=
  is_Some (measurement (api_sensor_type self) d).

(** The sample as the list comprehension of [async_update] builds it. *)
Definition sample_of (d : reading) : sample :=
  (default 0 (time d), default ∅ (values d)).

Definition descending (a b : sample) : Prop := b.1 <= a.1.

End SamplerSpec.

Module DiscoverySpec.

Section Listing.
Variable SUPPORTED_METER_TYPES : list string.

(** [m] is the last supported entry of the listing with the meter id
    [k], and [v] is its location. *)
Definition last_listed
    (k v : option string) (listing : list meter) : Prop :=
  exists l1 m l2,
    listing = l1 ++ m :: l2
    /\ Sensor.supported SUPPORTED_METER_TYPES m = true
    /\ meterId m = k
    /\ location m = v
    /\ Forall (fun m' => Sensor.supported SUPPORTED_METER_TYPES m' = true ->
                        meterId m' <> k) l2.

(** The meter ids of the supported entries, each once. *)
Definition supported_ids (listing : list meter) : list (option string) :=
  remove_dups (meterId <$> filter
                 (fun m => Sensor.supported SUPPORTED_METER_TYPES m = true)
                 listing).

End Listing.

(** What can be seen of an entity once it is built: its meter id, its
    kind, the measurement it asks the API for, its unit and its location
    attribute. *)
Definition observed (e : Sensor.DiscovergyMeterSensor)
  : option string * Sensor.sensor_kind * string * string * option string :=
  (Sensor.meter_id e, Sensor.sensor_type e, Sensor.api_sensor_type e,
   Sensor._unit_of_measurement e, Sensor._attrs e).

End DiscoverySpec.

(** ** The entity's properties *)

Module Entity.
Import Sensor.

(** What an f-string shows for a value that is a string or [None]. *)
Definition format (x : option string) : string := default "None" x.

(** The values of the constants [CONF_ENERGY] and [CONF_POWER]. *)
Definition conf (t : sensor_kind) : string :=
  match t with
  | CONF_ENERGY => "energy"
  | CONF_POWER => "power"
  end.

(** The dictionary that [device_info] returns; ["identifiers"] is a set. *)
Record device : Type := {
  identifiers : gset (string * string);
  device_name : string;
  manufacturer : string
}.

Section Const.

(** Three constants of [const.py], which is not among the sources. *)
Variables DOMAIN NAME MANUFACTURER : string.

Definition device_info (self : DiscovergyMeterSensor) : device :=
  {| identifiers := {[ (DOMAIN, "discovergy_smart_meter_" +:+ username self) ]};
     device_name := NAME +:+ ("_" +:+ format (meter_id self));
     manufacturer := MANUFACTURER |}.

End Const.

Definition unique_id (self : DiscovergyMeterSensor) : string :=
  format (meter_id self) +:+ ("_" +:+ conf (sensor_type self)).

Definition device_class (self : DiscovergyMeterSensor) : string :=
  Sensor.device_class (SENSOR_TYPES (sensor_type self)).

Definition name (self : DiscovergyMeterSensor) : string := _name self.

(** The dictionary [{"location": location}], by its one value. *)
Definition device_state_attributes (self : DiscovergyMeterSensor)
  : option string := _attrs self.

Definition unit_of_measurement (self : DiscovergyMeterSensor) : string :=
  _unit_of_measurement self.

End Entity.

(** ** Vocabulary of the further properties *)

Module FeedSpec.
Import Sensor SamplerSpec.

(** The number of samples that [select_reading] reads. *)
Definition needed (self : DiscovergyMeterSensor) : nat :=
  match sensor_type self with
  | CONF_ENERGY => 2
  | CONF_POWER => 1
  end.

(** A feed that the update cannot read: a sample without its time or its
    values, fewer samples than the sensor needs, or the sensor's measurement
    missing from one of the samples it reads. *)
Definition unreadable (self : DiscovergyMeterSensor) (l : list reading)
  : Prop :=
  Exists (fun d => time d = None \/ values d = None) l
  \/ (length l < needed self)%nat
  \/ Exists (fun s : sample => s.2 !! api_sensor_type self = None)
       (take (needed self) (sort_desc (map sample_of l))).

End FeedSpec.

Module FlowSpec.
Import ConfigFlow.

(** The form submitted again and again, each time against the API as it
    then behaves. *)
Definition submit_all
    (entries : list config_entry) (submissions : list (PyDiscovergy * user_input))
  : list config_entry :=
  foldl (fun es sub => (setup es sub.1 sub.2).1) entries submissions.

(** Entries as the flow stores them: each under the identity of its own
    username, no identity twice. *)
Definition well_kept (entries : list config_entry) : Prop :=
  NoDup (unique_id <$> entries)
  /\ Forall (fun e => unique_id e = Some (unique_id_of (entry_data e))) entries.

End FlowSpec.

(** ** Concrete inputs *)

Module Fixtures.

(** A client whose login always ends the same way and that lists the
    given meters and readings. *)
Definition client
    (login_result : result bool) (meters : result (option (list meter)))
    (readings : result (list reading)) : PyDiscovergy :=
  {| login := fun _ _ => login_result;
     get_meters := meters;
     get_readings := fun _ _ _ _ _ => readings |}.

Definition login_only (login_result : result bool) : PyDiscovergy :=
  client login_result (Ok None) (Ok []).

Definition feed (readings : list reading) : PyDiscovergy :=
  client (Ok true) (Ok None) (Ok readings).

Definition listing (meters : list meter) : PyDiscovergy :=
  client (Ok true) (Ok (Some meters)) (Ok []).

Definition alice : ConfigFlow.user_input :=
  {| ConfigFlow.CONF_USERNAME := "alice@example.org";
     ConfigFlow.CONF_PASSWORD := "secret" |}.

Definition alice_again : ConfigFlow.user_input :=
  {| ConfigFlow.CONF_USERNAME := "alice@example.org";
     ConfigFlow.CONF_PASSWORD := "other" |}.

Definition bob : ConfigFlow.user_input :=
  {| ConfigFlow.CONF_USERNAME := "bob@example.org";
     ConfigFlow.CONF_PASSWORD := "hunter2" |}.

Definition alice_entry : ConfigFlow.config_entry :=
  {| ConfigFlow.unique_id := Some "discovergy_smart_meter_alice@example.org";
     ConfigFlow.entry_title := "Discovergy Smart Meter";
     ConfigFlow.entry_data := alice |}.

(** A well-formed raw sample with one measurement. *)
Definition raw (t : Z) (kind : string) (v : Z) : reading :=
  {| time := Some t; values := Some {[ kind := v ]} |}.

(** A sample with its two fields and no measurement in it. *)
Definition bare (t : Z) : reading :=
  {| time := Some t; values := Some ∅ |}.

(** Three samples, the oldest without the energy measurement. *)
Definition three_samples : list reading :=
  [raw 3 "energy" 1000000000000; raw 2 "energy" 700000000000; bare 1].

Definition energy_sensor : Sensor.DiscovergyMeterSensor :=
  Sensor.__init__ "alice@example.org" "secret" (Some "m1")
    Sensor.CONF_ENERGY (Some "Aachen").

Definition power_sensor : Sensor.DiscovergyMeterSensor :=
  Sensor.__init__ "alice@example.org" "secret" (Some "m1")
    Sensor.CONF_POWER (Some "Aachen").

Definition electricity (id loc : string) : meter :=
  {| meterId := Some id; location := Some loc;
     measurementType := Some "ELECTRICITY" |}.

Definition gas (id loc : string) : meter :=
  {| meterId := Some id; location := Some loc;
     measurementType := Some "GAS" |}.

End Fixtures.

(** * Properties *)

(** ** Python numbers *)

Example float_of_int_500 : float_of_int 500 = Ok 500%float.
Proof. reflexivity. Qed.

Example float_of_int_out_of_range :
  float_of_int (2 ^ 1024) = Raise OverflowError.
Proof. vm_compute. reflexivity. Qed.

(** ** The configuration flow *)

Module ConfigFlowFacts.
Import ConfigFlow.

Lemma validate_input_login_true api data :
  login api (CONF_USERNAME data) (CONF_PASSWORD data) = Ok true ->
  _validate_input api data = Ok true.
Proof.
  intros H. unfold _validate_input, _validate_credentials.
  rewrite H. reflexivity.
Qed.

Lemma validate_input_login_false api data :
  login api (CONF_USERNAME data) (CONF_PASSWORD data) = Ok false ->
  _validate_input api data = Raise InvalidAuth.
Proof.
  intros H. unfold _validate_input, _validate_credentials.
  rewrite H. reflexivity.
Qed.

Lemma validate_input_login_raises api data e :
  login api (CONF_USERNAME data) (CONF_PASSWORD data) = Raise e ->
  _validate_input api data = Raise e.
Proof.
  intros H. unfold _validate_input, _validate_credentials.
  rewrite H. reflexivity.
Qed.

(** Validation ends in one of three ways, and raises only [InvalidAuth]
    or what the login call raised. *)
Lemma validate_input_cases api data :
  _validate_input api data = Ok true
  \/ _validate_input api data = Raise InvalidAuth
  \/ exists e, login api (CONF_USERNAME data) (CONF_PASSWORD data) = Raise e
               /\ _validate_input api data = Raise e.
Proof.
  destruct (login api (CONF_USERNAME data) (CONF_PASSWORD data))
    as [[|]|e] eqn:H.
  - left. by apply validate_input_login_true.
  - right; left. by apply validate_input_login_false.
  - right; right. exists e. split; [done|]. by apply validate_input_login_raises.
Qed.

(** A step never changes the stored entries unless it creates one. *)
Lemma setup_entries entries api data :
  (setup entries api data).1 = entries
  \/ exists e, setup entries api data = (entries ++ [e], Created e).
Proof.
  unfold setup.
  destruct (async_step_user new_flow entries api (Some data))
    as [self [[sid errs|title d]|e]]; simpl; eauto.
  destruct e; simpl; eauto.
Qed.

Lemma existsb_has_unique_id_app entries e :
  existsb (has_unique_id (unique_id e)) (entries ++ [e]) = true.
Proof.
  rewrite existsb_app. simpl. unfold has_unique_id at 2.
  rewrite bool_decide_eq_true_2 by reflexivity.
  by rewrite orb_true_r.
Qed.

(** A step on entries that already hold the identity of [data] creates
    nothing. *)
Lemma setup_configured entries api data :
  existsb (has_unique_id (Some (unique_id_of data))) entries = true ->
  (setup entries api data).1 = entries
  /\ (_validate_input api data = Ok true ->
      (setup entries api data).2 = Aborted "already_configured").
Proof.
  intros Hex. unfold setup, async_step_user.
  destruct (_validate_input api data) as [b|e] eqn:Hv.
  - unfold _abort_if_unique_id_configured. simpl. rewrite Hex. simpl. done.
  - destruct e; simpl; split; done.
Qed.

(** C1, on the code as it is: when the login call raises a transport-level
    fault, validation raises that same fault, not [CannotConnect]; the
    handler for [CannotConnect] is passed over, the broad handler takes the
    fault, and the form comes back with the error ["unknown"], which is not
    ["cannot_connect"]. Nothing is created. *)
Theorem transport_fault_shown_as_unknown entries api data e :
  login api (CONF_USERNAME data) (CONF_PASSWORD data) = Raise e ->
  is_transport_fault e = true ->
  _validate_input api data = Raise e
  /\ e <> CannotConnect
  /\ async_step_user new_flow entries api (Some data)
     = (new_flow, Ok (ShowForm "user" (Some (<["base" := "unknown"]> ∅))))
  /\ setup entries api data
     = (entries, Form (Some (<["base" := "unknown"]> ∅)))
  /\ (<["base" := "unknown"]> ∅ : gmap string string) !! "base"
     <> Some "cannot_connect".
Proof.
  intros Hlogin Hfault.
  pose proof (validate_input_login_raises _ _ _ Hlogin) as Hv.
  split; [exact Hv|].
  split; [by destruct e|].
  unfold setup, async_step_user. rewrite Hv.
  destruct e; try discriminate Hfault; repeat split; try reflexivity;
    rewrite lookup_insert_eq; discriminate.
Qed.

Lemma transport_fault_shown_as_unknown_witness :
  setup [] (Fixtures.login_only (Raise ConnectionError)) Fixtures.alice
  = ([], Form (Some (<["base" := "unknown"]> ∅))).
Proof.
  apply (transport_fault_shown_as_unknown []
           (Fixtures.login_only (Raise ConnectionError)) Fixtures.alice
           ConnectionError); reflexivity.
Defined.

(** The form shows ["cannot_connect"] only when the login call itself
    raises the flow's own [CannotConnect] class. *)
Lemma cannot_connect_only_from_login entries api data f errs :
  async_step_user new_flow entries api (Some data)
    = (f, Ok (ShowForm "user" (Some errs))) ->
  errs !! "base" = Some "cannot_connect" ->
  login api (CONF_USERNAME data) (CONF_PASSWORD data) = Raise CannotConnect.
Proof.
  unfold async_step_user.
  destruct (validate_input_cases api data) as [Hv|[Hv|(e & Hl & Hv)]];
    rewrite Hv.
  - simpl. destruct (_abort_if_unique_id_configured _ _); discriminate.
  - intros [= <- <-]. rewrite lookup_insert_eq. discriminate.
  - destruct e; intros [= <- <-]; rewrite lookup_insert_eq;
      try discriminate; done.
Qed.

(** C7: when the login call completes with a falsy response, validation
    raises [InvalidAuth] (and so not [CannotConnect]), the form comes back
    with the error ["invalid_auth"], and the stored entries are the ones
    there were: no entry is created. *)
Theorem invalid_credentials_invalid_auth entries api data :
  login api (CONF_USERNAME data) (CONF_PASSWORD data) = Ok false ->
  _validate_input api data = Raise InvalidAuth
  /\ _validate_input api data <> Raise CannotConnect
  /\ async_step_user new_flow entries api (Some data)
     = (new_flow,
        Ok (ShowForm "user" (Some (<["base" := "invalid_auth"]> ∅))))
  /\ setup entries api data
     = (entries, Form (Some (<["base" := "invalid_auth"]> ∅))).
Proof.
  intros Hlogin.
  pose proof (validate_input_login_false _ _ Hlogin) as Hv.
  split; [exact Hv|].
  split; [rewrite Hv; discriminate|].
  unfold setup, async_step_user. rewrite Hv. split; reflexivity.
Qed.

Lemma invalid_credentials_invalid_auth_witness :
  setup [Fixtures.alice_entry] (Fixtures.login_only (Ok false))
    Fixtures.alice_again
  = ([Fixtures.alice_entry], Form (Some (<["base" := "invalid_auth"]> ∅))).
Proof.
  apply (invalid_credentials_invalid_auth [Fixtures.alice_entry]
           (Fixtures.login_only (Ok false)) Fixtures.alice_again).
  reflexivity.
Defined.

(** C9: a setup that succeeds stores one more entry, whose identity is
    [discovergy_smart_meter_] followed by the username; any later setup
    with the same username, whatever the password and whatever the login
    call does, leaves the stored entries as they were after the first,
    and aborts when its credentials are valid. *)
Theorem duplicate_setup_aborts entries api data e :
  (setup entries api data).2 = Created e ->
  unique_id e = Some ("discovergy_smart_meter_" +:+ CONF_USERNAME data)
  /\ (setup entries api data).1 = (entries ++ [e])
  /\ forall api' data',
      CONF_USERNAME data' = CONF_USERNAME data ->
      (setup (setup entries api data).1 api' data').1
        = (setup entries api data).1
      /\ (login api' (CONF_USERNAME data') (CONF_PASSWORD data') = Ok true ->
          (setup (setup entries api data).1 api' data').2
            = Aborted "already_configured").
Proof.
  intros Hcreated.
  assert (Hfirst : setup entries api data = (entries ++ [e], Created e)
                   /\ unique_id e = Some (unique_id_of data)).
  { revert Hcreated. unfold setup, async_step_user.
    destruct (_validate_input api data) as [b|x].
    - simpl. destruct (_abort_if_unique_id_configured _ _) as [[]|x]; simpl.
      + intros [= <-]. done.
      + destruct x; discriminate.
    - destruct x; discriminate. }
  destruct Hfirst as [Hsetup Huid].
  split; [exact Huid|].
  rewrite Hsetup. simpl. split; [reflexivity|].
  intros api' data' Hname.
  assert (Hex : existsb (has_unique_id (Some (unique_id_of data')))
                  (entries ++ [e]) = true).
  { unfold unique_id_of. rewrite Hname. fold (unique_id_of data).
    rewrite <- Huid. apply existsb_has_unique_id_app. }
  destruct (setup_configured _ api' data' Hex) as [Hsame Habort].
  split; [exact Hsame|].
  intros Hlogin. apply Habort. by apply validate_input_login_true.
Qed.

Lemma duplicate_setup_aborts_witness :
  setup [Fixtures.alice_entry] (Fixtures.login_only (Ok true))
    Fixtures.alice_again
  = ([Fixtures.alice_entry], Aborted "already_configured").
Proof.
  pose proof (duplicate_setup_aborts [] (Fixtures.login_only (Ok true))
                Fixtures.alice Fixtures.alice_entry eq_refl) as (_ & _ & H).
  destruct (H (Fixtures.login_only (Ok true)) Fixtures.alice_again eq_refl)
    as [H1 H2].
  apply injective_projections; [exact H1 | exact (H2 eq_refl)].
Defined.

End ConfigFlowFacts.

(** ** The sampler *)

Module SamplerFacts.
Import Sensor SamplerSpec.

(** *** The sort *)

Lemma insert_desc_perm x l : Permutation (insert_desc x l) (x :: l).
Proof.
  induction l as [|y l IH]; simpl; [reflexivity|].
  destruct (x.1 <? y.1); [|reflexivity].
  rewrite IH. apply perm_swap.
Qed.

Lemma sort_desc_perm l : Permutation (sort_desc l) l.
Proof.
  induction l as [|x l IH]; simpl; [reflexivity|].
  rewrite insert_desc_perm. by constructor.
Qed.

Lemma insert_desc_sorted x l :
  StronglySorted descending l -> StronglySorted descending (insert_desc x l).
Proof.
  induction 1 as [|y l Hl IH Hy]; simpl.
  - constructor; constructor.
  - destruct (Z.ltb_spec x.1 y.1) as [Hlt|Hge].
    + constructor; [exact IH|].
      rewrite insert_desc_perm. constructor; [unfold descending; lia|exact Hy].
    + constructor; [by constructor|].
      constructor; [exact Hge|].
      eapply Forall_impl; [exact Hy|].
      unfold descending. intros z Hz. simpl in Hz. lia.
Qed.

Lemma sort_desc_sorted l : StronglySorted descending (sort_desc l).
Proof.
  induction l as [|x l IH]; simpl; [constructor|].
  by apply insert_desc_sorted.
Qed.

Lemma sort_desc_length l : length (sort_desc l) = length l.
Proof. apply Permutation_length, sort_desc_perm. Qed.

(** The sort is stable: a feed already in descending order, ties
    included, is left as it is. *)
Lemma sort_desc_stable l : StronglySorted descending l -> sort_desc l = l.
Proof.
  induction 1 as [|x l Hl IH Hx]; [reflexivity|].
  cbn [sort_desc foldr]. fold (sort_desc l). rewrite IH.
  destruct l as [|y l]; [reflexivity|].
  apply Forall_cons in Hx as [Hxy _]. unfold descending in Hxy.
  cbn [insert_desc]. destruct (Z.ltb_spec x.1 y.1); [lia|reflexivity].
Qed.

(** The head of the sorted list is a sample of the feed that no sample
    is newer than. *)
Lemma sort_desc_head l s rest :
  sort_desc l = s :: rest ->
  s ∈ l /\ Forall (fun x => x.1 <= s.1) l.
Proof.
  intros Hs. pose proof (sort_desc_perm l) as Hp.
  pose proof (sort_desc_sorted l) as Hsorted.
  rewrite Hs in Hp, Hsorted. split.
  - rewrite <- Hp. left.
  - rewrite <- Hp. apply StronglySorted_inv in Hsorted as [_ Hall].
    constructor; [lia|exact Hall].
Qed.

(** *** The list comprehension *)

Lemma time_and_values_complete kind d :
  is_Some (measurement kind d) -> time_and_values d = Ok (sample_of d).
Proof.
  intros [[t v] Hd]. unfold measurement in Hd.
  unfold time_and_values, sample_of.
  destruct (time d) as [t'|]; [|discriminate].
  destruct (values d) as [vs|]; [|discriminate]. reflexivity.
Qed.

Lemma comprehension_complete kind l :
  Forall (fun d => is_Some (measurement kind d)) l ->
  comprehension time_and_values l = Ok (map sample_of l).
Proof.
  induction 1 as [|d l Hd _ IH]; [reflexivity|].
  cbn [comprehension map].
  rewrite (time_and_values_complete kind d Hd), IH. reflexivity.
Qed.

Lemma time_sorted_complete kind l :
  Forall (fun d => is_Some (measurement kind d)) l ->
  time_sorted l = Ok (sort_desc (map sample_of l)).
Proof.
  intros H. unfold time_sorted.
  by rewrite (comprehension_complete kind l H).
Qed.

Lemma measurement_sample_of kind d t v :
  measurement kind d = Some (t, v) ->
  (sample_of d).1 = t /\ (sample_of d).2 !! kind = Some v.
Proof.
  unfold measurement, sample_of.
  destruct (time d) as [t'|]; [|discriminate].
  destruct (values d) as [vs|]; [|discriminate]. simpl.
  destruct (vs !! kind) as [v'|] eqn:Hv; [|discriminate].
  intros [= <- <-]. done.
Qed.

(** A missing ["time"] or ["values"] key, in any sample, ends the
    comprehension with [KeyError]. *)
Lemma time_and_values_cases d :
  (exists s, time_and_values d = Ok s /\ time d <> None /\ values d <> None)
  \/ (time_and_values d = Raise KeyError
      /\ (time d = None \/ values d = None)).
Proof.
  unfold time_and_values.
  destruct (time d) as [t|]; [|right; auto].
  destruct (values d) as [vs|]; [|right; auto].
  left. eexists. done.
Qed.

Lemma comprehension_missing_field l :
  Exists (fun d => time d = None \/ values d = None) l ->
  comprehension time_and_values l = Raise KeyError.
Proof.
  induction l as [|d l IH]; intros Hex; [by inversion Hex|].
  cbn [comprehension].
  destruct (time_and_values_cases d) as [(s & -> & Ht & Hv)|[-> _]];
    [|reflexivity].
  inversion Hex as [? ? [H|H]|? ? Hl]; subst; try congruence.
  rewrite (IH Hl). reflexivity.
Qed.

(** *** The update *)

Lemma consistent_init u p m kind loc : consistent (__init__ u p m kind loc).
Proof. split; reflexivity. Qed.

Lemma consistent_set_state self st :
  consistent self -> consistent (set_state self st).
Proof. intros H. exact H. Qed.

Lemma async_update_published self api now st :
  new_state self api now = Ok st ->
  async_update self api now = (set_state self st, Published).
Proof. intros H. unfold async_update. by rewrite H. Qed.

Lemma async_update_raised self api now e :
  new_state self api now = Raise e ->
  async_update self api now
  = (self, if caught e then Warned else Propagated e).
Proof. intros H. unfold async_update. rewrite H. by destruct (caught e). Qed.

(** An update changes the state only, and only when it publishes. *)
Lemma async_update_cases self api now :
  (exists st, new_state self api now = Ok st
              /\ async_update self api now = (set_state self st, Published))
  \/ (exists o, async_update self api now = (self, o) /\ o <> Published).
Proof.
  destruct (new_state self api now) as [st|e] eqn:H.
  - left. exists st. split; [done|]. by apply async_update_published.
  - right. rewrite (async_update_raised _ _ _ _ H).
    eexists. split; [done|]. by destruct (caught e).
Qed.

(** Once the API has answered, the new state is the selected reading of
    the sorted samples times the scale. *)
Lemma new_state_fed self api now b l :
  login api (username self) (password self) = Ok b ->
  get_readings api (meter_id self) (now - 6 * 60 * 1000) now
    "three_minutes" (api_sensor_type self) = Ok l ->
  new_state self api now
  = (time_sorted_data ← time_sorted l;
     reading ← select_reading self time_sorted_data;
     int_mul_float reading (_scale self)).
Proof. intros Hl Hr. unfold new_state. rewrite Hl. simpl. by rewrite Hr. Qed.

Lemma new_state_complete self api now b l :
  login api (username self) (password self) = Ok b ->
  get_readings api (meter_id self) (now - 6 * 60 * 1000) now
    "three_minutes" (api_sensor_type self) = Ok l ->
  Forall (fun d => is_Some (measurement (api_sensor_type self) d)) l ->
  new_state self api now
  = (reading ← select_reading self (sort_desc (map sample_of l));
     int_mul_float reading (_scale self)).
Proof.
  intros Hl Hr Hc. rewrite (new_state_fed _ _ _ _ _ Hl Hr).
  by rewrite (time_sorted_complete _ _ Hc).
Qed.

(** The first sample of the sorted feed comes from a sample of the feed
    that none is newer than. *)
Lemma sorted_feed_head kind l s rest :
  Forall (fun d => is_Some (measurement kind d)) l ->
  sort_desc (map sample_of l) = s :: rest ->
  exists d t v,
    d ∈ l /\ s = sample_of d /\ measurement kind d = Some (t, v)
    /\ s.1 = t /\ s.2 !! kind = Some v
    /\ Forall (fun d' => (sample_of d').1 <= t) l.
Proof.
  intros Hc Hs. apply sort_desc_head in Hs as [Hin Hmax].
  apply list_elem_of_fmap in Hin as (d & -> & Hd).
  pose proof (proj1 (Forall_forall _ _) Hc d Hd) as [[t v] Hm].
  destruct (measurement_sample_of _ _ _ _ Hm) as [Ht Hv].
  exists d, t, v. repeat split; try done.
  rewrite <- Ht.
  exact (proj1 (List.Forall_map sample_of
                  (fun x : sample => x.1 <= (sample_of d).1) l) Hmax).
Qed.

(** The first two samples of a sorted feed of two or more. *)
Lemma sorted_feed_two kind l :
  Forall (fun d => is_Some (measurement kind d)) l ->
  (2 <= length l)%nat ->
  exists d1 d2 older t1 v1 t2 v2,
    Permutation l (d1 :: d2 :: older)
    /\ sort_desc (map sample_of l) = map sample_of (d1 :: d2 :: older)
    /\ measurement kind d1 = Some (t1, v1)
    /\ measurement kind d2 = Some (t2, v2)
    /\ t2 <= t1
    /\ Forall (fun d => exists t v,
                 measurement kind d = Some (t, v) /\ t <= t2) older.
Proof.
  intros Hc Hlen.
  pose proof (sort_desc_perm (map sample_of l)) as Hp.
  pose proof (sort_desc_sorted (map sample_of l)) as Hsorted.
  apply Permutation_map_inv in Hp as (l3 & Hl3 & Hperm).
  assert (Hlen3 : length l3 = length l) by (symmetry; by apply Permutation_length).
  destruct l3 as [|d1 [|d2 older]]; simpl in Hlen3; try lia.
  assert (Hc3 : Forall (fun d => is_Some (measurement kind d))
                  (d1 :: d2 :: older)) by (by rewrite <- Hperm).
  apply Forall_cons in Hc3 as [[[t1 v1] H1] Hc3].
  apply Forall_cons in Hc3 as [[[t2 v2] H2] Hc3].
  exists d1, d2, older, t1, v1, t2, v2.
  rewrite Hl3 in Hsorted. simpl in Hsorted.
  apply StronglySorted_inv in Hsorted as [Hsorted Hall1].
  apply StronglySorted_inv in Hsorted as [_ Hall2].
  destruct (measurement_sample_of _ _ _ _ H1) as [E1 _].
  destruct (measurement_sample_of _ _ _ _ H2) as [E2 _].
  repeat split; try done.
  - apply Forall_cons in Hall1 as [Hle _]. unfold descending in Hle.
    by rewrite <- E1, <- E2.
  - apply (proj1 (List.Forall_map sample_of
                    (descending (sample_of d2)) older)) in Hall2.
    apply Forall_forall. intros d Hd.
    pose proof (proj1 (Forall_forall _ _) Hc3 d Hd) as [[t v] Hm].
    exists t, v. split; [done|].
    pose proof (proj1 (Forall_forall _ _) Hall2 d Hd) as Hle.
    unfold descending in Hle.
    destruct (measurement_sample_of _ _ _ _ Hm) as [E _].
    by rewrite <- E, <- E2.
Qed.

Lemma measurement_raw t kind v :
  measurement kind (Fixtures.raw t kind v) = Some (t, v).
Proof.
  unfold measurement, Fixtures.raw. simpl. by rewrite lookup_singleton_eq.
Qed.

Lemma new_state_answered self api now l :
  answers api self now l ->
  new_state self api now
  = (time_sorted_data ← time_sorted l;
     reading ← select_reading self time_sorted_data;
     int_mul_float reading (_scale self)).
Proof. intros [[b Hl] Hr]. by apply (new_state_fed _ _ _ b). Qed.

Lemma new_state_answered_complete self api now l :
  answers api self now l ->
  Forall (complete self) l ->
  new_state self api now
  = (reading ← select_reading self (sort_desc (map sample_of l));
     int_mul_float reading (_scale self)).
Proof. intros [[b Hl] Hr]. by apply (new_state_complete _ _ _ b). Qed.

Lemma answers_feed self now l : answers (Fixtures.feed l) self now l.
Proof. split; [by exists true|reflexivity]. Qed.

Lemma energy_sensor_attrs self :
  sensor_type self = CONF_ENERGY -> consistent self ->
  api_sensor_type self = "energy" /\ _scale self = int_truediv 1 (10 ^ 10).
Proof. intros Hk [Hs Ha]. rewrite Hk in Hs, Ha. done. Qed.

Lemma power_sensor_attrs self :
  sensor_type self = CONF_POWER -> consistent self ->
  api_sensor_type self = "power" /\ _scale self = int_truediv 1 1000.
Proof. intros Hk [Hs Ha]. rewrite Hk in Hs, Ha. done. Qed.

(** The energy reading of a sorted feed of complete samples. *)
Lemma select_reading_energy self d1 d2 older t1 v1 t2 v2 :
  sensor_type self = CONF_ENERGY ->
  measurement (api_sensor_type self) d1 = Some (t1, v1) ->
  measurement (api_sensor_type self) d2 = Some (t2, v2) ->
  select_reading self (map sample_of (d1 :: d2 :: older)) = Ok (v1 - v2).
Proof.
  intros Hk H1 H2. unfold select_reading. rewrite Hk.
  destruct (measurement_sample_of _ _ _ _ H1) as [_ E1].
  destruct (measurement_sample_of _ _ _ _ H2) as [_ E2].
  unfold index. cbn [map lookup list_lookup]. cbn [mbind result_bind].
  rewrite E1, E2. reflexivity.
Qed.

(** The power reading of a sorted feed whose first sample is complete. *)
Lemma select_reading_power self s rest v :
  sensor_type self = CONF_POWER ->
  s.2 !! api_sensor_type self = Some v ->
  select_reading self (s :: rest) = Ok v.
Proof.
  intros Hk Hv. unfold select_reading. rewrite Hk.
  unfold index. simpl. by rewrite Hv.
Qed.

Lemma int_mul_float_delta :
  int_mul_float (1000000000000 - 700000000000) (int_truediv 1 (10 ^ 10))
  = Ok 30%float.
Proof. vm_compute. reflexivity. Qed.

Lemma int_mul_float_500 :
  int_mul_float 500 (int_truediv 1 1000) = Ok 0.5%float.
Proof. vm_compute. reflexivity. Qed.

(** C2: an energy sensor polls and the API answers with a feed of two or
    more complete samples. Then the feed splits into a newest sample
    [d1], a second-newest [d2] and samples that are no newer, and the new
    state is Python's product of the integer [v1 - v2] by [1 / 10 ** 10];
    when the product is [f], the update publishes [f]. In particular the
    feed of [(t2, 1000000000000)] and [(t1, 700000000000)], [t1 < t2],
    publishes 30.0. *)
Theorem energy_state_is_scaled_delta self api now l :
  sensor_type self = CONF_ENERGY ->
  consistent self ->
  answers api self now l ->
  (Forall (complete self) l ->
   (2 <= length l)%nat ->
   exists d1 d2 older t1 v1 t2 v2,
     Permutation l (d1 :: d2 :: older)
     /\ measurement "energy" d1 = Some (t1, v1)
     /\ measurement "energy" d2 = Some (t2, v2)
     /\ t2 <= t1
     /\ Forall (fun d => exists t v,
                  measurement "energy" d = Some (t, v) /\ t <= t2) older
     /\ new_state self api now
        = int_mul_float (v1 - v2) (int_truediv 1 (10 ^ 10))
     /\ forall f,
          int_mul_float (v1 - v2) (int_truediv 1 (10 ^ 10)) = Ok f ->
          async_update self api now = (set_state self f, Published)
          /\ state (async_update self api now).1 = Some f)
  /\ (forall t1 t2,
        t1 < t2 ->
        l = [Fixtures.raw t2 "energy" 1000000000000;
             Fixtures.raw t1 "energy" 700000000000] ->
        async_update self api now = (set_state self 30%float, Published)
        /\ state (async_update self api now).1 = Some 30%float).
Proof.
  intros Hk Hcons Hans.
  destruct (energy_sensor_attrs self Hk Hcons) as [Hname Hscale].
  assert (General :
    Forall (complete self) l -> (2 <= length l)%nat ->
    exists d1 d2 older t1 v1 t2 v2,
      Permutation l (d1 :: d2 :: older)
      /\ measurement "energy" d1 = Some (t1, v1)
      /\ measurement "energy" d2 = Some (t2, v2)
      /\ t2 <= t1
      /\ Forall (fun d => exists t v,
                   measurement "energy" d = Some (t, v) /\ t <= t2) older
      /\ new_state self api now
         = int_mul_float (v1 - v2) (int_truediv 1 (10 ^ 10))
      /\ forall f,
           int_mul_float (v1 - v2) (int_truediv 1 (10 ^ 10)) = Ok f ->
           async_update self api now = (set_state self f, Published)
           /\ state (async_update self api now).1 = Some f).
  { intros Hc Hlen.
    pose proof (new_state_answered_complete _ _ _ _ Hans Hc) as Hn.
    unfold complete in Hc.
    destruct (sorted_feed_two _ _ Hc Hlen)
      as (d1 & d2 & older & t1 & v1 & t2 & v2 & Hp & Hs & H1 & H2 & Hle & Hold).
    rewrite Hs, (select_reading_energy _ _ _ _ _ _ _ _ Hk H1 H2) in Hn.
    rewrite Hscale in Hn. cbn [mbind result_bind] in Hn.
    rewrite Hname in H1, H2, Hold.
    exists d1, d2, older, t1, v1, t2, v2.
    do 5 (split; [done|]). split; [exact Hn|].
    intros f Hf. rewrite Hf in Hn.
    rewrite (async_update_published _ _ _ _ Hn). done. }
  split; [exact General|].
  intros t1 t2 Hlt ->.
  destruct General
    as (d1 & d2 & older & u1 & v1 & u2 & v2 & Hp & H1 & H2 & Hle & _ & _ & Hf).
  { unfold complete. rewrite Hname.
    repeat constructor; rewrite measurement_raw; by eexists. }
  { simpl. lia. }
  assert (Hv : v1 - v2 = 1000000000000 - 700000000000).
  { pose proof (Permutation_length Hp) as Hlen.
    destruct older; [|discriminate Hlen].
    apply Permutation_length_2_inv in Hp as [[= -> ->]|[= -> ->]];
      rewrite !measurement_raw in H1, H2;
      injection H1 as <- <-; injection H2 as <- <-; [reflexivity|lia]. }
  apply Hf. rewrite Hv. exact int_mul_float_delta.
Qed.

Lemma energy_state_is_scaled_delta_witness :
  async_update Fixtures.energy_sensor
    (Fixtures.feed [Fixtures.raw 2 "energy" 1000000000000;
                    Fixtures.raw 1 "energy" 700000000000]) 1000
  = (set_state Fixtures.energy_sensor 30%float, Published).
Proof.
  refine (proj1 (proj2 (energy_state_is_scaled_delta
                          Fixtures.energy_sensor _ 1000 _ eq_refl _ _)
                   1 2 _ eq_refl)).
  - split; reflexivity.
  - split; [exists true|]; reflexivity.
  - reflexivity.
Defined.

(** The newest sample of a feed, when it is the only one with its
    timestamp, gives the power reading, in whatever order the feed
    lists the samples. *)
Lemma power_newest_any_order self l d t v api now l' :
  sensor_type self = CONF_POWER ->
  Forall (complete self) l ->
  d ∈ l ->
  measurement (api_sensor_type self) d = Some (t, v) ->
  (forall d' t' v',
      d' ∈ l -> measurement (api_sensor_type self) d' = Some (t', v') ->
      d' = d \/ t' < t) ->
  Permutation l l' ->
  answers api self now l' ->
  new_state self api now = int_mul_float v (_scale self).
Proof.
  intros Hk Hc Hd Hm Huniq Hp Hans.
  assert (Hc' : Forall (complete self) l') by (by rewrite <- Hp).
  rewrite (new_state_answered_complete _ _ _ _ Hans Hc').
  destruct (sort_desc (map sample_of l')) as [|s rest] eqn:Hs.
  { apply (f_equal length) in Hs.
    rewrite sort_desc_length, length_map in Hs.
    rewrite <- Hp in Hs. destruct l; [by inversion Hd|discriminate Hs]. }
  destruct (sorted_feed_head _ _ _ _ Hc' Hs)
    as (d0 & t0 & v0 & Hd0 & -> & Hm0 & Ht0 & Hv0 & Hmax).
  rewrite (select_reading_power _ _ _ _ Hk Hv0). cbn [mbind result_bind].
  rewrite <- Hp in Hd0, Hmax.
  destruct (Huniq d0 t0 v0 Hd0 Hm0) as [->|Hlt].
  - rewrite Hm in Hm0. by injection Hm0 as <- <-.
  - pose proof (proj1 (Forall_forall _ _) Hmax d Hd) as Hle.
    destruct (measurement_sample_of _ _ _ _ Hm) as [E _].
    assert (t <= t0) by (rewrite <- E; exact Hle). lia.
Qed.

(** C3: a power sensor polls and the API answers with a non-empty feed
    of complete samples. Then the new state is Python's product of the
    value [v] of a sample that no sample of the feed is newer than by
    [1 / 1000], and the update publishes it. When one sample alone has
    the greatest timestamp, every feed that lists the same samples in
    another order gives the same state. In particular the samples
    [(t2, 500)] and [(t1, 480)], [t1 < t2], publish 0.5 in either
    order. *)
Theorem power_state_is_scaled_newest self :
  sensor_type self = CONF_POWER ->
  consistent self ->
  (forall api now l,
      answers api self now l -> Forall (complete self) l -> l <> [] ->
      exists d t v,
        d ∈ l
        /\ measurement "power" d = Some (t, v)
        /\ Forall (fun d' => exists t' v',
                     measurement "power" d' = Some (t', v') /\ t' <= t) l
        /\ new_state self api now = int_mul_float v (int_truediv 1 1000)
        /\ forall f,
             int_mul_float v (int_truediv 1 1000) = Ok f ->
             async_update self api now = (set_state self f, Published)
             /\ state (async_update self api now).1 = Some f)
  /\ (forall l d t v,
        Forall (complete self) l ->
        d ∈ l ->
        measurement "power" d = Some (t, v) ->
        (forall d' t' v',
            d' ∈ l -> measurement "power" d' = Some (t', v') ->
            d' = d \/ t' < t) ->
        forall api now l',
          Permutation l l' -> answers api self now l' ->
          new_state self api now = int_mul_float v (int_truediv 1 1000))
  /\ (forall api now l t1 t2,
        t1 < t2 ->
        answers api self now l ->
        Permutation l [Fixtures.raw t2 "power" 500;
                       Fixtures.raw t1 "power" 480] ->
        async_update self api now = (set_state self 0.5%float, Published)
        /\ state (async_update self api now).1 = Some 0.5%float).
Proof.
  intros Hk Hcons.
  destruct (power_sensor_attrs self Hk Hcons) as [Hname Hscale].
  assert (Order : forall l d t v,
    Forall (complete self) l ->
    d ∈ l ->
    measurement "power" d = Some (t, v) ->
    (forall d' t' v',
        d' ∈ l -> measurement "power" d' = Some (t', v') ->
        d' = d \/ t' < t) ->
    forall api now l',
      Permutation l l' -> answers api self now l' ->
      new_state self api now = int_mul_float v (int_truediv 1 1000)).
  { intros l d t v Hc Hd Hm Huniq api now l' Hp Hans.
    rewrite <- Hscale. rewrite <- Hname in Hm, Huniq.
    by apply (power_newest_any_order self l d t v api now l'). }
  split; [|split; [exact Order|]].
  - intros api now l Hans Hc Hne.
    pose proof (new_state_answered_complete _ _ _ _ Hans Hc) as Hn.
    destruct (sort_desc (map sample_of l)) as [|s rest] eqn:Hs.
    { apply (f_equal length) in Hs.
      rewrite sort_desc_length, length_map in Hs. by destruct l. }
    destruct (sorted_feed_head _ _ _ _ Hc Hs)
      as (d & t & v & Hd & -> & Hm & Ht & Hv & Hmax).
    rewrite (select_reading_power _ _ _ _ Hk Hv), Hscale in Hn.
    cbn [mbind result_bind] in Hn.
    exists d, t, v. rewrite Hname in Hm.
    do 2 (split; [done|]). split; [|split; [exact Hn|]].
    + apply Forall_forall. intros d' Hd'.
      pose proof (proj1 (Forall_forall _ _) Hc d' Hd') as [[t' v'] Hm'].
      pose proof (proj1 (Forall_forall _ _) Hmax d' Hd') as Hle.
      destruct (measurement_sample_of _ _ _ _ Hm') as [E _].
      assert (t' <= t) by (rewrite <- E; exact Hle).
      rewrite Hname in Hm'. by exists t', v'.
    + intros f Hf. rewrite Hf in Hn.
      rewrite (async_update_published _ _ _ _ Hn). done.
  - intros api now l t1 t2 Hlt Hans Hp.
    assert (Hn : new_state self api now = Ok 0.5%float).
    { rewrite <- int_mul_float_500.
      eapply (Order [Fixtures.raw t2 "power" 500; Fixtures.raw t1 "power" 480]
                (Fixtures.raw t2 "power" 500) t2 500);
        [| | | |symmetry; exact Hp|exact Hans].
      - unfold complete. rewrite Hname.
        repeat constructor; rewrite measurement_raw; by eexists.
      - left.
      - apply measurement_raw.
      - intros d' t' v' Hd' Hm'.
        apply elem_of_cons in Hd' as [->|Hd']; [by left|].
        apply list_elem_of_singleton in Hd' as ->.
        rewrite measurement_raw in Hm'. injection Hm' as <- <-. by right. }
    rewrite (async_update_published _ _ _ _ Hn). done.
Qed.

Lemma power_state_is_scaled_newest_witness :
  async_update Fixtures.power_sensor
    (Fixtures.feed [Fixtures.raw 1 "power" 480;
                    Fixtures.raw 2 "power" 500]) 1000
  = (set_state Fixtures.power_sensor 0.5%float, Published).
Proof.
  refine (proj1 (proj2 (proj2 (power_state_is_scaled_newest
                                 Fixtures.power_sensor eq_refl _))
                   _ 1000 _ 1 2 _ _ _)).
  - split; reflexivity.
  - reflexivity.
  - split; [exists true|]; reflexivity.
  - apply perm_swap.
Defined.

(** Two samples with one timestamp: the first of the feed is read. *)
Example tie_keeps_feed_order :
  (time_sorted [Fixtures.raw 5 "power" 500; Fixtures.raw 5 "power" 480]
     ≫= select_reading Fixtures.power_sensor) = Ok 500
  /\ (time_sorted [Fixtures.raw 5 "power" 480; Fixtures.raw 5 "power" 500]
        ≫= select_reading Fixtures.power_sensor) = Ok 480.
Proof. split; vm_compute; reflexivity. Qed.

(** A reading beyond the binary64 range: [int * float] raises
    [OverflowError], which [async_update] does not catch. *)
Example overflow_is_not_caught :
  async_update Fixtures.power_sensor
    (Fixtures.feed [Fixtures.raw 5 "power" (2 ^ 1024)]) 1000
  = (Fixtures.power_sensor, Propagated OverflowError).
Proof. vm_compute. reflexivity. Qed.

(** *** Faults of the feed *)

Lemma time_and_values_ok d :
  time d <> None -> values d <> None -> time_and_values d = Ok (sample_of d).
Proof.
  unfold time_and_values, sample_of.
  destruct (time d) as [t|]; [|done].
  destruct (values d) as [vs|]; done.
Qed.

(** Either every sample has its two fields and the comprehension gives
    the samples, or one lacks a field and it raises [KeyError]. *)
Lemma comprehension_cases l :
  comprehension time_and_values l = Ok (map sample_of l)
  \/ (comprehension time_and_values l = Raise KeyError
      /\ Exists (fun d => time d = None \/ values d = None) l).
Proof.
  induction l as [|d l IH]; [by left|].
  cbn [comprehension map].
  destruct (time_and_values_cases d) as [(s & Hs & Ht & Hv)|[Hs Hmiss]].
  - rewrite (time_and_values_ok d Ht Hv).
    destruct IH as [->|[-> Hex]]; [by left|].
    right. split; [reflexivity|]. by apply Exists_cons_tl.
  - rewrite Hs. right. split; [reflexivity|]. by apply Exists_cons_hd.
Qed.

(** The energy reading needs two samples and the key in both. *)
Lemma select_reading_energy_fault self sorted :
  sensor_type self = CONF_ENERGY ->
  (length sorted < 2)%nat
  \/ Exists (fun s : sample => s.2 !! api_sensor_type self = None)
       (take 2 sorted) ->
  exists e, select_reading self sorted = Raise e /\ caught e = true.
Proof.
  intros Hk Hfault. unfold select_reading. rewrite Hk. unfold index.
  destruct sorted as [|s1 [|s2 rest]]; cbn [lookup list_lookup];
    cbn [mbind result_bind].
  - by exists IndexError.
  - destruct (s1.2 !! api_sensor_type self);
      [by exists IndexError|by exists KeyError].
  - destruct Hfault as [Hlen|Hex]; [simpl in Hlen; lia|].
    cbn [take] in Hex.
    destruct (s1.2 !! api_sensor_type self) as [v1|] eqn:E1;
      [|by exists KeyError].
    destruct (s2.2 !! api_sensor_type self) as [v2|] eqn:E2;
      [|by exists KeyError].
    apply Exists_cons in Hex as [Hex|Hex]; [congruence|].
    apply Exists_cons in Hex as [Hex|Hex]; [congruence|].
    by apply Exists_nil in Hex.
Qed.

(** C4, as the code has it: an energy sensor polls and the API answers
    with fewer than two samples (an empty window included), or with a
    sample that lacks its time or its values field, or with the
    measurement key missing from one of the two samples that come first
    in descending time order. Then no exception leaves the update, a
    warning is logged, and the sensor, its published state included, is
    what it was. *)
Theorem energy_fault_keeps_state self api now l :
  sensor_type self = CONF_ENERGY ->
  consistent self ->
  answers api self now l ->
  (length l < 2)%nat
  \/ Exists (fun d => time d = None \/ values d = None) l
  \/ Exists (fun s : sample => s.2 !! "energy" = None)
       (take 2 (sort_desc (map sample_of l))) ->
  async_update self api now = (self, Warned)
  /\ state (async_update self api now).1 = state self.
Proof.
  intros Hk Hcons Hans Hfault.
  destruct (energy_sensor_attrs self Hk Hcons) as [Hname _].
  assert (Hn : exists e, new_state self api now = Raise e /\ caught e = true).
  { rewrite (new_state_answered _ _ _ _ Hans). unfold time_sorted.
    destruct (comprehension_cases l) as [Hc|[Hc _]]; rewrite Hc;
      [|by exists KeyError].
    cbn [mbind result_bind].
    destruct (select_reading_energy_fault self
                (sort_desc (map sample_of l)) Hk) as (e & Hsel & He).
    - destruct Hfault as [Hlen|[Hmiss|Hkey]].
      + left. by rewrite sort_desc_length, length_map.
      + rewrite (comprehension_missing_field l Hmiss) in Hc. discriminate.
      + right. by rewrite Hname.
    - rewrite Hsel. by exists e. }
  destruct Hn as (e & Hn & He).
  rewrite (async_update_raised _ _ _ _ Hn), He. done.
Qed.

Lemma energy_fault_keeps_state_witness :
  async_update Fixtures.energy_sensor
    (Fixtures.feed [Fixtures.raw 2 "energy" 700000000000]) 1000
  = (Fixtures.energy_sensor, Warned).
Proof.
  refine (proj1 (energy_fault_keeps_state Fixtures.energy_sensor
                   _ 1000 [Fixtures.raw 2 "energy" 700000000000]
                   eq_refl _ _ _)).
  - split; reflexivity.
  - split; [exists true|]; reflexivity.
  - left. simpl. lia.
Defined.

(** C4, a feed on which the property as written fails: the API answers
    with three samples of which the oldest lacks the energy measurement, an
    expected field; the update reads that key in the two newest samples
    only, so it publishes 30.0 and the state is no longer the previous
    one. *)
Lemma absent_key_in_older_sample_updates :
  answers (Fixtures.feed Fixtures.three_samples) Fixtures.energy_sensor 1000
    Fixtures.three_samples
  /\ Exists (fun d => exists vs, values d = Some vs /\ vs !! "energy" = None)
       Fixtures.three_samples
  /\ async_update Fixtures.energy_sensor
       (Fixtures.feed Fixtures.three_samples) 1000
     = (set_state Fixtures.energy_sensor 30%float, Published)
  /\ state (async_update Fixtures.energy_sensor
              (Fixtures.feed Fixtures.three_samples) 1000).1
     <> state Fixtures.energy_sensor.
Proof.
  split; [apply answers_feed|].
  split.
  { do 2 apply Exists_cons_tl. apply Exists_cons_hd.
    exists ∅. split; [reflexivity|apply lookup_empty]. }
  assert (H : async_update Fixtures.energy_sensor
                (Fixtures.feed Fixtures.three_samples) 1000
              = (set_state Fixtures.energy_sensor 30%float, Published))
    by (vm_compute; reflexivity).
  split; [exact H|]. rewrite H. discriminate.
Qed.

(** *** The state over the life of a sensor *)

(** Polling changes nothing of a sensor but its state. *)
Lemma poll_all_state self polls :
  poll_all self polls = self
  \/ exists f, poll_all self polls = set_state self f.
Proof.
  unfold poll_all.
  induction polls as [|[api now] polls IH] using rev_ind; [by left|].
  rewrite foldl_app. cbn [foldl].
  set (s := foldl _ self polls) in *. cbn [fst snd].
  destruct (async_update_cases s api now)
    as [(st & _ & ->)|(o & -> & _)]; cbn [fst].
  - right. exists st. destruct IH as [->|[f ->]]; reflexivity.
  - exact IH.
Qed.

Lemma poll_all_unsuccessful self polls :
  Forall (fun poll => (async_update self poll.1 poll.2).2 <> Published)
    polls ->
  poll_all self polls = self.
Proof.
  unfold poll_all. induction 1 as [|[api now] polls Hp _ IH]; [done|].
  cbn [foldl fst snd] in *.
  destruct (async_update_cases self api now)
    as [(st & _ & E)|(o & -> & _)].
  - by rewrite E in Hp.
  - exact IH.
Qed.

(** The scales, as binary64 numbers: the doubles nearest to 0.001 and to
    1e-10. *)
Lemma scale_literals :
  int_truediv 1 1000 = 0x1.0624dd2f1a9fcp-10%float
  /\ int_truediv 1 (10 ^ 10) = 0x1.b7cdfd9d7bdbbp-34%float.
Proof. split; vm_compute; reflexivity. Qed.

Lemma int_mul_float_ok z s f :
  int_mul_float z s = Ok f ->
  exists x, float_of_int z = Ok x /\ f = (x * s)%float.
Proof.
  unfold int_mul_float. destruct (float_of_int z) as [x|e]; [|discriminate].
  cbn [mbind result_bind]. intros [= <-]. by exists x.
Qed.

(** What a successful update has done. *)
Lemma published_update self api now self' :
  async_update self api now = (self', Published) ->
  exists l data reading f,
    get_readings api (meter_id self) (now - 6 * 60 * 1000) now
      "three_minutes" (api_sensor_type self) = Ok l
    /\ time_sorted l = Ok data
    /\ select_reading self data = Ok reading
    /\ int_mul_float reading (_scale self) = Ok f
    /\ self' = set_state self f.
Proof.
  intros Hup.
  destruct (async_update_cases self api now)
    as [(st & Hst & E)|(o & E & Ho)]; rewrite E in Hup;
    [|injection Hup as _ Ho'; congruence].
  injection Hup as <-. unfold new_state in Hst.
  destruct (login api (username self) (password self)) as [b|e];
    [|discriminate]. cbn [mbind result_bind] in Hst.
  destruct (get_readings _ _ _ _ _ _) as [l|e]; [|discriminate].
  cbn [mbind result_bind] in Hst.
  destruct (time_sorted l) as [data|e] eqn:Hd; [|discriminate].
  cbn [mbind result_bind] in Hst.
  destruct (select_reading self data) as [reading|e] eqn:Hr; [|discriminate].
  cbn [mbind result_bind] in Hst.
  by exists l, data, reading, st.
Qed.

(** C8: a sensor starts with no state, and with the scale of its kind,
    [1 / 1000] for power and [1 / 10 ** 10] for energy, the doubles
    nearest to 0.001 and 1e-10. While no update has succeeded the state is
    still none. Whenever an update of the sensor succeeds, after any number
    of earlier polls, the API returned a feed, the sorted feed gave a
    selected integer reading, and the new state is the binary64 product of
    that reading, as a float, by the scale of the sensor's kind: a power
    reading of 500 gives 0.5 and an energy reading of 300000000000 gives
    30.0. *)
Theorem state_is_scaled_reading u p m kind loc :
  state (__init__ u p m kind loc) = None
  /\ _scale (__init__ u p m kind loc)
     = match kind with
       | CONF_POWER => int_truediv 1 1000
       | CONF_ENERGY => int_truediv 1 (10 ^ 10)
       end
  /\ _scale (__init__ u p m kind loc)
     = match kind with
       | CONF_POWER => 0x1.0624dd2f1a9fcp-10%float
       | CONF_ENERGY => 0x1.b7cdfd9d7bdbbp-34%float
       end
  /\ (forall polls,
        Forall (fun poll =>
                  (async_update (__init__ u p m kind loc) poll.1 poll.2).2
                  <> Published) polls ->
        state (poll_all (__init__ u p m kind loc) polls) = None)
  /\ (forall polls api now self',
        async_update (poll_all (__init__ u p m kind loc) polls) api now
          = (self', Published) ->
        exists l data reading x f,
          get_readings api m (now - 6 * 60 * 1000) now "three_minutes"
            (api_name (SENSOR_TYPES kind)) = Ok l
          /\ time_sorted l = Ok data
          /\ select_reading (__init__ u p m kind loc) data = Ok reading
          /\ int_mul_float reading
               match kind with
               | CONF_POWER => int_truediv 1 1000
               | CONF_ENERGY => int_truediv 1 (10 ^ 10)
               end = Ok f
          /\ float_of_int reading = Ok x
          /\ f = (x * match kind with
                      | CONF_POWER => 0x1.0624dd2f1a9fcp-10
                      | CONF_ENERGY => 0x1.b7cdfd9d7bdbbp-34
                      end)%float
          /\ state self' = Some f
          /\ _scale self' = _scale (__init__ u p m kind loc)
          /\ sensor_type self' = kind)
  /\ (forall polls api now self' l data,
        async_update (poll_all (__init__ u p m kind loc) polls) api now
          = (self', Published) ->
        get_readings api m (now - 6 * 60 * 1000) now "three_minutes"
          (api_name (SENSOR_TYPES kind)) = Ok l ->
        time_sorted l = Ok data ->
        (kind = CONF_POWER ->
         select_reading (__init__ u p m kind loc) data = Ok 500 ->
         state self' = Some 0.5%float)
        /\ (kind = CONF_ENERGY ->
            select_reading (__init__ u p m kind loc) data = Ok 300000000000 ->
            state self' = Some 30%float)).
Proof.
  destruct scale_literals as [Hpower Henergy].
  set (s0 := __init__ u p m kind loc).
  assert (Hscale : _scale s0
                   = match kind with
                     | CONF_POWER => int_truediv 1 1000
                     | CONF_ENERGY => int_truediv 1 (10 ^ 10)
                     end) by (by destruct kind).
  assert (Core : forall polls api now self',
    async_update (poll_all s0 polls) api now = (self', Published) ->
    exists l data reading f,
      get_readings api m (now - 6 * 60 * 1000) now "three_minutes"
        (api_name (SENSOR_TYPES kind)) = Ok l
      /\ time_sorted l = Ok data
      /\ select_reading s0 data = Ok reading
      /\ int_mul_float reading (_scale s0) = Ok f
      /\ self' = set_state s0 f).
  { intros polls api now self' Hup.
    apply published_update in Hup as (l & data & reading & f & Hup).
    exists l, data, reading, f.
    destruct (poll_all_state s0 polls) as [E|[g E]]; rewrite E in Hup;
      exact Hup. }
  split; [reflexivity|]. split; [exact Hscale|].
  split; [rewrite Hscale; by destruct kind|]. split; [|split].
  - intros polls Hall. by rewrite (poll_all_unsuccessful _ _ Hall).
  - intros polls api now self' Hup.
    destruct (Core _ _ _ _ Hup) as (l & data & reading & f & Hl & Hd & Hr & Hf & ->).
    destruct (int_mul_float_ok _ _ _ Hf) as (x & Hx & Hprod).
    exists l, data, reading, x, f. rewrite Hscale in Hf, Hprod.
    do 3 (split; [done|]). split; [exact Hf|]. split; [exact Hx|].
    split; [|done]. rewrite Hprod. by destruct kind; rewrite ?Hpower, ?Henergy.
  - intros polls api now self' l data Hup Hl Hd.
    destruct (Core _ _ _ _ Hup)
      as (l' & data' & reading & f & Hl' & Hd' & Hr & Hf & ->).
    rewrite Hl in Hl'. injection Hl' as <-.
    rewrite Hd in Hd'. injection Hd' as <-.
    rewrite Hscale in Hf. split.
    + intros -> Hsel. rewrite Hsel in Hr. injection Hr as <-.
      rewrite int_mul_float_500 in Hf. injection Hf as <-. reflexivity.
    + intros -> Hsel. rewrite Hsel in Hr. injection Hr as <-.
      change 300000000000 with (1000000000000 - 700000000000) in Hf.
      rewrite int_mul_float_delta in Hf. injection Hf as <-. reflexivity.
Qed.

Lemma state_is_scaled_reading_witness :
  state (async_update
           (poll_all Fixtures.power_sensor [(Fixtures.feed [], 1000)])
           (Fixtures.feed [Fixtures.raw 1 "power" 480;
                           Fixtures.raw 2 "power" 500]) 2000).1
  = Some 0.5%float.
Proof.
  pose proof (state_is_scaled_reading "alice@example.org" "secret"
                (Some "m1") CONF_POWER (Some "Aachen"))
    as (_ & _ & _ & _ & _ & H).
  refine (proj1 (H [(Fixtures.feed [], 1000)]
                   (Fixtures.feed [Fixtures.raw 1 "power" 480;
                                   Fixtures.raw 2 "power" 500]) 2000
                   (async_update
                      (poll_all Fixtures.power_sensor
                         [(Fixtures.feed [], 1000)])
                      (Fixtures.feed [Fixtures.raw 1 "power" 480;
                                      Fixtures.raw 2 "power" 500]) 2000).1
                   [Fixtures.raw 1 "power" 480; Fixtures.raw 2 "power" 500]
                   (sort_desc
                      [SamplerSpec.sample_of (Fixtures.raw 1 "power" 480);
                       SamplerSpec.sample_of (Fixtures.raw 2 "power" 500)])
                   _ _ _) _ _); reflexivity.
Defined.

End SamplerFacts.

(** ** Discovery *)

Module DiscoveryFacts.
Import Sensor.

(** *** The ordered dictionary *)

Section Dict.
Context {K V : Type} `{EqDecision K}.
Implicit Types (k : K) (v : V) (d : list (K * V)).

Lemma dict_set_keys_old k v d :
  k ∈ d.*1 -> (dict_set k v d).*1 = d.*1.
Proof.
  induction d as [|[k' v'] d IH]; intros Hin.
  - by apply elem_of_nil in Hin.
  - rewrite fmap_cons in Hin. cbn [dict_set fst] in *.
    destruct (decide (k = k')) as [->|Hne]; [by rewrite !fmap_cons|].
    apply elem_of_cons in Hin as [?|Hin]; [done|].
    rewrite !fmap_cons. f_equal. by apply IH.
Qed.

Lemma dict_set_keys_new k v d :
  k ∉ d.*1 -> (dict_set k v d).*1 = d.*1 ++ [k].
Proof.
  induction d as [|[k' v'] d IH]; intros Hnin; [done|].
  rewrite fmap_cons in Hnin. cbn [dict_set fst] in *.
  apply not_elem_of_cons in Hnin as [Hne Hnin].
  destruct (decide (k = k')) as [?|_]; [done|].
  rewrite !fmap_cons. cbn [fst app]. f_equal. by apply IH.
Qed.

Lemma dict_set_NoDup k v d : NoDup d.*1 -> NoDup (dict_set k v d).*1.
Proof.
  intros Hnd. destruct (decide (k ∈ d.*1)) as [Hin|Hnin].
  - by rewrite dict_set_keys_old.
  - rewrite dict_set_keys_new by done.
    apply NoDup_app. split; [done|]. split.
    + intros x Hx Hx'. apply list_elem_of_singleton in Hx' as ->. done.
    + apply NoDup_singleton.
Qed.

Lemma dict_set_key_elem k v d k' :
  k' ∈ (dict_set k v d).*1 <-> k' = k \/ k' ∈ d.*1.
Proof.
  destruct (decide (k ∈ d.*1)) as [Hin|Hnin].
  - rewrite dict_set_keys_old by done.
    split; [by right|]. by intros [->|?].
  - rewrite dict_set_keys_new by done.
    rewrite elem_of_app, list_elem_of_singleton. tauto.
Qed.

(** After [d[k] = v], the key [k] has the value [v] and the other keys
    have the value they had. *)
Lemma dict_set_elem k v d k' v' :
  NoDup d.*1 ->
  (k', v') ∈ dict_set k v d
  <-> (k' = k /\ v' = v) \/ (k' <> k /\ (k', v') ∈ d).
Proof.
  induction d as [|[k0 v0] d IH]; simpl; intros Hnd.
  - rewrite list_elem_of_singleton. split.
    + intros [= -> ->]. by left.
    + intros [[-> ->]|[_ H]]; [done|]. by apply elem_of_nil in H.
  - apply NoDup_cons in Hnd as [Hk0 Hnd].
    destruct (decide (k = k0)) as [->|Hne].
    + rewrite !elem_of_cons. split.
      * intros [[= -> ->]|Hin]; [by left|].
        right. split; [|by right].
        intros ->. apply Hk0.
        apply list_elem_of_fmap. by exists (k0, v').
      * intros [[-> ->]|[Hne [[= ? ?]|Hin]]]; [by left|done|by right].
    + rewrite !elem_of_cons, (IH Hnd). split.
      * intros [[= -> ->]|[[-> ->]|[Hne' Hin]]].
        -- right. split; [done|]. by left.
        -- by left.
        -- right. split; [done|]. by right.
      * intros [[-> ->]|[Hne' [[= -> ->]|Hin]]].
        -- right. by left.
        -- by left.
        -- right. right. done.
Qed.

End Dict.

(** *** The listing *)

Section Listing.
Variable SUPPORTED_METER_TYPES : list string.

Local Abbreviation supported := (supported SUPPORTED_METER_TYPES).
Local Abbreviation meters_by_id := (meters_by_id SUPPORTED_METER_TYPES).
Local Abbreviation last_listed :=
  (DiscoverySpec.last_listed SUPPORTED_METER_TYPES).
Local Abbreviation supported_ids :=
  (DiscoverySpec.supported_ids SUPPORTED_METER_TYPES).

Lemma meters_by_id_snoc listing x :
  meters_by_id (listing ++ [x])
  = if supported x
    then dict_set (meterId x) (location x) (meters_by_id listing)
    else meters_by_id listing.
Proof. unfold Sensor.meters_by_id. by rewrite foldl_app. Qed.

Lemma meters_by_id_NoDup listing : NoDup (meters_by_id listing).*1.
Proof.
  induction listing as [|x listing IH] using rev_ind; [constructor|].
  rewrite meters_by_id_snoc. destruct (supported x); [|done].
  by apply dict_set_NoDup.
Qed.

Lemma last_listed_snoc k v listing x :
  last_listed k v (listing ++ [x])
  <-> (supported x = true /\ meterId x = k /\ location x = v)
      \/ ((supported x = true -> meterId x <> k) /\ last_listed k v listing).
Proof.
  split.
  - intros (l1 & m & l2 & Heq & Hs & Hk & Hv & Hlater).
    destruct l2 as [|y l2 _] using rev_ind.
    + apply app_inj_tail in Heq as [_ ->]. by left.
    + rewrite app_comm_cons, app_assoc in Heq.
      apply app_inj_tail in Heq as [-> ->].
      apply Forall_app in Hlater as [Hlater Hy].
      rewrite Forall_singleton in Hy.
      right. split; [done|]. by exists l1, m, l2.
  - intros [(Hs & Hk & Hv)|[Hx (l1 & m & l2 & -> & Hs & Hk & Hv & Hlater)]].
    + exists listing, x, []. by repeat split.
    + exists l1, m, (l2 ++ [x]).
      split; [by rewrite <- app_assoc|]. repeat split; try done.
      apply Forall_app. split; [done|]. by apply Forall_singleton.
Qed.

(** The dictionary holds, for each meter id, the location of the last
    supported entry listed with it. *)
Lemma meters_by_id_elem listing k v :
  (k, v) ∈ meters_by_id listing <-> last_listed k v listing.
Proof.
  induction listing as [|x listing IH] using rev_ind.
  - split; [by intros ?%elem_of_nil|].
    intros (l1 & m & l2 & Heq & _). by destruct l1.
  - rewrite meters_by_id_snoc, last_listed_snoc.
    destruct (supported x) eqn:Hx.
    + rewrite dict_set_elem by apply meters_by_id_NoDup.
      rewrite IH. split.
      * intros [[-> ->]|[Hne H]]; [by left|].
        right. split; [|done]. intros _. congruence.
      * intros [(_ & <- & <-)|[Hne H]]; [by left|].
        right. split; [|done]. intros E. by apply Hne.
    + rewrite IH. split.
      * intros H. right. split; [|done]. intros ?. congruence.
      * intros [(? & _)|[_ H]]; [congruence|done].
Qed.

Lemma last_listed_supported k v listing :
  last_listed k v listing ->
  exists m, m ∈ listing /\ supported m = true
            /\ meterId m = k /\ location m = v.
Proof.
  intros (l1 & m & l2 & -> & Hs & Hk & Hv & _).
  exists m. split; [|done]. apply elem_of_app. right. left.
Qed.

(** Every supported entry has a last entry with its id. *)
Lemma supported_last_listed listing m :
  m ∈ listing -> supported m = true ->
  exists v, last_listed (meterId m) v listing.
Proof.
  induction listing as [|x listing IH] using rev_ind;
    [by intros ?%elem_of_nil|].
  intros Hin Hm. setoid_rewrite last_listed_snoc.
  destruct (supported x) eqn:Hx.
  - destruct (decide (meterId x = meterId m)) as [Heq|Hne].
    + exists (location x). by left.
    + apply elem_of_app in Hin as [Hin|Hin].
      * destruct (IH Hin Hm) as [v Hv]. exists v. right. done.
      * apply list_elem_of_singleton in Hin as ->. done.
  - apply elem_of_app in Hin as [Hin|Hin].
    + destruct (IH Hin Hm) as [v Hv]. exists v. right.
      split; [|done]. intros ?. congruence.
    + apply list_elem_of_singleton in Hin as ->. congruence.
Qed.

Lemma meters_by_id_keys listing k :
  k ∈ (meters_by_id listing).*1
  <-> exists m, m ∈ listing /\ supported m = true /\ meterId m = k.
Proof.
  split.
  - intros ([k' v] & -> & Hin)%list_elem_of_fmap.
    apply meters_by_id_elem, last_listed_supported in Hin
      as (m & ? & ? & ? & ?). by exists m.
  - intros (m & Hin & Hs & <-).
    destruct (supported_last_listed _ _ Hin Hs) as [v Hv].
    apply meters_by_id_elem in Hv.
    apply list_elem_of_fmap. by exists (meterId m, v).
Qed.

Lemma meters_by_id_length listing :
  length (meters_by_id listing) = length (supported_ids listing).
Proof.
  rewrite <- (length_fmap fst). apply Permutation_length.
  apply NoDup_Permutation.
  - apply meters_by_id_NoDup.
  - apply NoDup_remove_dups.
  - intros k. rewrite meters_by_id_keys.
    unfold DiscoverySpec.supported_ids.
    rewrite elem_of_remove_dups, list_elem_of_fmap.
    split.
    + intros (m & Hin & Hs & <-). exists m. split; [done|].
      by apply list_elem_of_filter.
    + intros (m & -> & [Hs Hin]%list_elem_of_filter). by exists m.
Qed.

End Listing.

(** *** The entities *)

Section Entities.
Variables username password : string.
Implicit Types (info : list (option string * option string)).

Local Abbreviation pair_of k v :=
  [__init__ username password k CONF_ENERGY v;
   __init__ username password k CONF_POWER v].

Lemma entities_for_cons k v info :
  entities_for username password ((k, v) :: info)
  = pair_of k v ++ entities_for username password info.
Proof. reflexivity. Qed.

Lemma entities_for_length info :
  length (entities_for username password info) = (2 * length info)%nat.
Proof.
  induction info as [|[k v] info IH]; [done|].
  rewrite entities_for_cons, length_app, IH. simpl. lia.
Qed.

Lemma entities_for_elem info e :
  e ∈ entities_for username password info
  <-> exists k v kind,
        (k, v) ∈ info /\ e = __init__ username password k kind v.
Proof.
  induction info as [|[k v] info IH].
  - split; [by intros ?%elem_of_nil|].
    intros (k & v & kind & ?%elem_of_nil & _). done.
  - rewrite entities_for_cons, elem_of_app, IH. split.
    + intros [He|(k' & v' & kind & Hin & ->)].
      * apply elem_of_cons in He as [->|He];
          [exists k, v, CONF_ENERGY; split; [left|done]|].
        apply list_elem_of_singleton in He as ->.
        exists k, v, CONF_POWER. split; [left|done].
      * exists k', v', kind. split; [by right|done].
    + intros (k' & v' & kind & Hin & ->).
      apply elem_of_cons in Hin as [[= -> ->]|Hin].
      * left. destruct kind; [left|right; left].
      * right. by exists k', v', kind.
Qed.

Lemma entities_for_filter_absent info k :
  k ∉ info.*1 ->
  filter (fun e => meter_id e = k) (entities_for username password info)
  = [].
Proof.
  induction info as [|[k0 v0] info IH]; intros Hk; [done|].
  rewrite fmap_cons in Hk. apply not_elem_of_cons in Hk as [Hne Hk].
  rewrite entities_for_cons, filter_app, (IH Hk), app_nil_r.
  rewrite !filter_cons, filter_nil. cbn [meter_id __init__].
  by rewrite !decide_False by (cbn [fst] in Hne; congruence).
Qed.

(** The entities of one meter id are the pair built from its entry of
    the dictionary. *)
Lemma entities_for_filter info k v :
  NoDup info.*1 ->
  (k, v) ∈ info ->
  filter (fun e => meter_id e = k) (entities_for username password info)
  = pair_of k v.
Proof.
  induction info as [|[k0 v0] info IH]; intros Hnd Hin;
    [by apply elem_of_nil in Hin|].
  rewrite fmap_cons in Hnd. apply NoDup_cons in Hnd as [Hk0 Hnd].
  cbn [fst] in Hk0.
  rewrite entities_for_cons, filter_app, !filter_cons, filter_nil.
  cbn [meter_id __init__].
  apply elem_of_cons in Hin as [[= -> ->]|Hin].
  - rewrite !decide_True by done.
    by rewrite (entities_for_filter_absent info k0 Hk0).
  - assert (k0 <> k).
    { intros ->. apply Hk0. apply list_elem_of_fmap. by exists (k, v). }
    rewrite !decide_False by done. by apply IH.
Qed.

Lemma entities_for_NoDup info :
  NoDup info.*1 ->
  NoDup ((fun e => (meter_id e, sensor_type e))
           <$> entities_for username password info).
Proof.
  induction info as [|[k v] info IH]; intros Hnd; [constructor|].
  rewrite fmap_cons in Hnd. apply NoDup_cons in Hnd as [Hk Hnd].
  cbn [fst] in Hk.
  rewrite entities_for_cons, fmap_app. apply NoDup_app.
  split; [|split; [|by apply IH]].
  - cbn. apply NoDup_cons. split; [|apply NoDup_singleton].
    intros [=]%list_elem_of_singleton.
  - intros [k' kind] Hin Hin'.
    assert (k' = k) as ->.
    { cbn in Hin. apply elem_of_cons in Hin as [[= -> _]|Hin]; [done|].
      by apply list_elem_of_singleton in Hin as [= -> _]. }
    apply list_elem_of_fmap in Hin' as (e & [= Hid _] & He).
    apply entities_for_elem in He as (k1 & v1 & kind1 & Hin1 & ->).
    cbn in Hid. subst k1. apply Hk.
    apply list_elem_of_fmap. by exists (k, v1).
Qed.

End Entities.

(** *** The setup of the platform *)

Section Setup.
Variable SUPPORTED_METER_TYPES : list string.

Local Abbreviation supported := (supported SUPPORTED_METER_TYPES).
Local Abbreviation async_setup_entry :=
  (async_setup_entry SUPPORTED_METER_TYPES).
Local Abbreviation user entry :=
  (ConfigFlow.CONF_USERNAME (ConfigFlow.entry_data entry)).
Local Abbreviation pass entry :=
  (ConfigFlow.CONF_PASSWORD (ConfigFlow.entry_data entry)).

(** What the setup returns once the API has listed meters. *)
Lemma async_setup_entry_listed api entry b listing :
  login api (user entry) (pass entry) = Ok b ->
  get_meters api = Ok (Some listing) ->
  async_setup_entry api entry
  = Ok match listing with
       | [] => {| success := false; added := [] |}
       | _ => {| success := true;
                 added := entities_for (user entry) (pass entry)
                            (meters_by_id SUPPORTED_METER_TYPES listing) |}
       end.
Proof.
  intros Hl Hm. unfold Sensor.async_setup_entry. rewrite Hl.
  cbn [mbind result_bind]. rewrite Hm. cbn [mbind result_bind].
  by destruct listing.
Qed.

Lemma async_setup_entry_added api entry b listing :
  login api (user entry) (pass entry) = Ok b ->
  get_meters api = Ok (Some listing) ->
  exists r,
    async_setup_entry api entry = Ok r
    /\ added r = entities_for (user entry) (pass entry)
                   (meters_by_id SUPPORTED_METER_TYPES listing).
Proof.
  intros Hl Hm. rewrite (async_setup_entry_listed _ _ _ _ Hl Hm).
  eexists. split; [reflexivity|]. by destruct listing.
Qed.

(** C5, as the code has it: the API lists meters. Every entity that the
    setup adds has the meter id and the location of a supported entry of
    the listing, so unsupported entries give nothing. For each supported
    entry the entities with its meter id are exactly two, an energy sensor
    (measurement ["energy"], unit kWh) and a power sensor (measurement
    ["power"], unit W), both with that id and with the location of the last
    supported entry listed with that id, which is the entry's own location
    when no later supported entry has its id. A listing of one supported
    and one unsupported entry gives exactly the two entities of the
    supported one, with its id and its location. *)
Theorem discovery_keeps_supported_meters api entry b listing :
  login api (user entry) (pass entry) = Ok b ->
  get_meters api = Ok (Some listing) ->
  exists r,
    async_setup_entry api entry = Ok r
    /\ (forall e, e ∈ added r ->
          exists m, m ∈ listing /\ supported m = true
                    /\ meter_id e = meterId m /\ _attrs e = location m)
    /\ (forall m, m ∈ listing -> supported m = true ->
          exists loc,
            DiscoverySpec.last_listed SUPPORTED_METER_TYPES
              (meterId m) loc listing
            /\ DiscoverySpec.observed
                 <$> filter (fun e => meter_id e = meterId m) (added r)
               = [(meterId m, CONF_ENERGY, "energy", "kWh", loc);
                  (meterId m, CONF_POWER, "power", "W", loc)])
    /\ (forall l1 m l2,
          listing = l1 ++ m :: l2 ->
          supported m = true ->
          Forall (fun m' => supported m' = true ->
                            meterId m' <> meterId m) l2 ->
          DiscoverySpec.observed
            <$> filter (fun e => meter_id e = meterId m) (added r)
          = [(meterId m, CONF_ENERGY, "energy", "kWh", location m);
             (meterId m, CONF_POWER, "power", "W", location m)])
    /\ (forall m1 m2,
          supported m1 = true -> supported m2 = false ->
          listing = [m1; m2] \/ listing = [m2; m1] ->
          DiscoverySpec.observed <$> added r
          = [(meterId m1, CONF_ENERGY, "energy", "kWh", location m1);
             (meterId m1, CONF_POWER, "power", "W", location m1)]
          /\ length (added r) = 2%nat).
Proof.
  intros Hl Hm.
  destruct (async_setup_entry_added _ _ _ _ Hl Hm) as (r & Hr & Hadded).
  exists r. split; [exact Hr|]. rewrite Hadded. clear Hr Hadded.
  split; [|split; [|split]].
  - intros e (k & v & kind & Hin & ->)%entities_for_elem.
    apply meters_by_id_elem, last_listed_supported in Hin
      as (m & ? & ? & ? & ?). by exists m.
  - intros m Hin Hs.
    destruct (supported_last_listed _ _ _ Hin Hs) as [loc Hloc].
    exists loc. split; [exact Hloc|].
    apply meters_by_id_elem in Hloc.
    rewrite (entities_for_filter _ _ _ _ _
               (meters_by_id_NoDup SUPPORTED_METER_TYPES listing) Hloc).
    reflexivity.
  - intros l1 m l2 -> Hs Hlater.
    assert (Hin : (meterId m, location m)
                  ∈ meters_by_id SUPPORTED_METER_TYPES (l1 ++ m :: l2)).
    { apply meters_by_id_elem. by exists l1, m, l2. }
    rewrite (entities_for_filter _ _ _ _ _
               (meters_by_id_NoDup SUPPORTED_METER_TYPES _) Hin).
    reflexivity.
  - intros m1 m2 H1 H2 [E|E]; rewrite E; unfold Sensor.meters_by_id;
      cbn [foldl]; rewrite H1, H2; cbn [dict_set]; done.
Qed.

(** C6: when the API returns no listing, or an empty one, the setup
    returns False and adds no entity. *)
Theorem empty_listing_fails api entry b :
  login api (user entry) (pass entry) = Ok b ->
  get_meters api = Ok None \/ get_meters api = Ok (Some []) ->
  async_setup_entry api entry = Ok {| success := false; added := [] |}.
Proof.
  intros Hl Hm. unfold Sensor.async_setup_entry. rewrite Hl.
  cbn [mbind result_bind]. by destruct Hm as [Hm|Hm]; rewrite Hm.
Qed.

(** C10: the API lists meters, some of them several times. The setup
    adds no two entities with the same meter id and kind; it adds twice
    as many entities as there are distinct meter ids among the
    supported entries; the entities of each such id are one energy and
    one power sensor; and the location attribute that both carry is the
    one of the last supported entry listed with that id. *)
Theorem discovery_deduplicates_by_meter_id api entry b listing :
  login api (user entry) (pass entry) = Ok b ->
  get_meters api = Ok (Some listing) ->
  exists r,
    async_setup_entry api entry = Ok r
    /\ NoDup ((fun e => (meter_id e, sensor_type e)) <$> added r)
    /\ length (added r)
       = (2 * length (DiscoverySpec.supported_ids
                        SUPPORTED_METER_TYPES listing))%nat
    /\ (forall k,
          k ∈ DiscoverySpec.supported_ids SUPPORTED_METER_TYPES listing ->
          exists loc,
            filter (fun e => meter_id e = k) (added r)
            = [__init__ (user entry) (pass entry) k CONF_ENERGY loc;
               __init__ (user entry) (pass entry) k CONF_POWER loc]
            /\ DiscoverySpec.observed
                 <$> filter (fun e => meter_id e = k) (added r)
               = [(k, CONF_ENERGY, "energy", "kWh", loc);
                  (k, CONF_POWER, "power", "W", loc)])
    /\ (forall l1 m l2,
          listing = l1 ++ m :: l2 ->
          supported m = true ->
          Forall (fun m' => supported m' = true ->
                            meterId m' <> meterId m) l2 ->
          filter (fun e => meter_id e = meterId m) (added r)
          = [__init__ (user entry) (pass entry) (meterId m)
               CONF_ENERGY (location m);
             __init__ (user entry) (pass entry) (meterId m)
               CONF_POWER (location m)]
          /\ DiscoverySpec.observed
               <$> filter (fun e => meter_id e = meterId m) (added r)
             = [(meterId m, CONF_ENERGY, "energy", "kWh", location m);
                (meterId m, CONF_POWER, "power", "W", location m)]
          /\ Forall (fun e => Entity.device_state_attributes e = location m)
               (filter (fun e => meter_id e = meterId m) (added r))).
Proof.
  intros Hl Hm.
  destruct (async_setup_entry_added _ _ _ _ Hl Hm) as (r & Hr & Hadded).
  exists r. split; [exact Hr|]. rewrite Hadded. clear Hr Hadded.
  split; [|split; [|split]].
  - apply entities_for_NoDup, meters_by_id_NoDup.
  - by rewrite entities_for_length, meters_by_id_length.
  - intros k Hk. unfold DiscoverySpec.supported_ids in Hk.
    apply elem_of_remove_dups, list_elem_of_fmap in Hk
      as (m & -> & [Hs Hin]%list_elem_of_filter).
    destruct (supported_last_listed _ _ _ Hin Hs) as [loc Hloc].
    apply meters_by_id_elem in Hloc.
    pose proof (entities_for_filter (user entry) (pass entry) _ _ _
                  (meters_by_id_NoDup SUPPORTED_METER_TYPES listing) Hloc)
      as Hpair.
    exists loc. split; [exact Hpair|]. rewrite Hpair. reflexivity.
  - intros l1 m l2 -> Hs Hlater.
    assert (Hin : (meterId m, location m)
                  ∈ meters_by_id SUPPORTED_METER_TYPES (l1 ++ m :: l2)).
    { apply meters_by_id_elem. by exists l1, m, l2. }
    pose proof (meters_by_id_NoDup SUPPORTED_METER_TYPES (l1 ++ m :: l2))
      as Hnd.
    rewrite (entities_for_filter (user entry) (pass entry) _ _ _ Hnd Hin).
    split; [reflexivity|]. split; [reflexivity|].
    repeat constructor.
Qed.

End Setup.

Lemma supported_electricity id loc :
  supported ["ELECTRICITY"] (Fixtures.electricity id loc) = true.
Proof. reflexivity. Qed.

Lemma discovery_keeps_supported_meters_witness :
  exists r,
    async_setup_entry ["ELECTRICITY"]
      (Fixtures.listing [Fixtures.electricity "m1" "Aachen";
                         Fixtures.gas "g1" "Bonn"])
      Fixtures.alice_entry = Ok r
    /\ DiscoverySpec.observed <$> added r
       = [(Some "m1", CONF_ENERGY, "energy", "kWh", Some "Aachen");
          (Some "m1", CONF_POWER, "power", "W", Some "Aachen")]
    /\ length (added r) = 2%nat.
Proof.
  destruct (discovery_keeps_supported_meters ["ELECTRICITY"]
              (Fixtures.listing [Fixtures.electricity "m1" "Aachen";
                                 Fixtures.gas "g1" "Bonn"])
              Fixtures.alice_entry true _ eq_refl eq_refl)
    as (r & Hr & _ & _ & _ & Hex).
  exists r. split; [exact Hr|].
  exact (Hex (Fixtures.electricity "m1" "Aachen")
           (Fixtures.gas "g1" "Bonn") eq_refl eq_refl (or_introl eq_refl)).
Defined.

(** C5, a listing on which the property as written fails: two entries of
    a supported type have the same meter id and different locations. Both
    are kept by the filter, yet the setup adds two entities, not two for
    each, and none has the location of the first entry. *)
Lemma duplicate_meter_gets_one_pair :
  Forall (fun m => supported ["ELECTRICITY"] m = true)
    [Fixtures.electricity "m1" "Bonn"; Fixtures.electricity "m1" "Aachen"]
  /\ exists r,
       async_setup_entry ["ELECTRICITY"]
         (Fixtures.listing [Fixtures.electricity "m1" "Bonn";
                            Fixtures.electricity "m1" "Aachen"])
         Fixtures.alice_entry = Ok r
       /\ length (added r) = 2%nat
       /\ length (added r)
          <> (2 * length [Fixtures.electricity "m1" "Bonn";
                          Fixtures.electricity "m1" "Aachen"])%nat
       /\ Forall (fun e =>
                    _attrs e <> location (Fixtures.electricity "m1" "Bonn"))
            (added r)
       /\ DiscoverySpec.observed <$> added r
          = [(Some "m1", CONF_ENERGY, "energy", "kWh", Some "Aachen");
             (Some "m1", CONF_POWER, "power", "W", Some "Aachen")].
Proof.
  split; [by repeat constructor|].
  eexists. split; [reflexivity|]. cbn.
  split; [reflexivity|]. split; [discriminate|].
  split; [|reflexivity]. repeat constructor; discriminate.
Qed.

Lemma empty_listing_fails_witness :
  async_setup_entry ["ELECTRICITY"] (Fixtures.listing [])
    Fixtures.alice_entry
  = Ok {| success := false; added := [] |}.
Proof.
  exact (empty_listing_fails ["ELECTRICITY"] (Fixtures.listing [])
           Fixtures.alice_entry true eq_refl (or_intror eq_refl)).
Defined.

Lemma discovery_deduplicates_by_meter_id_witness :
  exists r,
    async_setup_entry ["ELECTRICITY"]
      (Fixtures.listing [Fixtures.electricity "m1" "Bonn";
                         Fixtures.gas "g1" "Bonn";
                         Fixtures.electricity "m1" "Aachen"])
      Fixtures.alice_entry = Ok r
    /\ DiscoverySpec.observed
         <$> filter (fun e => meter_id e = Some "m1") (added r)
       = [(Some "m1", CONF_ENERGY, "energy", "kWh", Some "Aachen");
          (Some "m1", CONF_POWER, "power", "W", Some "Aachen")]
    /\ length (added r) = 2%nat.
Proof.
  destruct (discovery_deduplicates_by_meter_id ["ELECTRICITY"]
              (Fixtures.listing [Fixtures.electricity "m1" "Bonn";
                                 Fixtures.gas "g1" "Bonn";
                                 Fixtures.electricity "m1" "Aachen"])
              Fixtures.alice_entry true _ eq_refl eq_refl)
    as (r & Hr & _ & Hlen & _ & Hlast).
  exists r. split; [exact Hr|]. split; [|exact Hlen].
  exact (proj1 (proj2
           (Hlast [Fixtures.electricity "m1" "Bonn"; Fixtures.gas "g1" "Bonn"]
              (Fixtures.electricity "m1" "Aachen") [] eq_refl eq_refl
              (Forall_nil_2 _)))).
Defined.

End DiscoveryFacts.


(** ** More on the configuration flow *)

Module ConfigFlowMore.
Import ConfigFlow FlowSpec ConfigFlowFacts.

(** The entry that a successful submission of [data] stores. *)
Local Abbreviation entry_of data :=
  {| unique_id := Some (unique_id_of data);
     entry_title := "Discovergy Smart Meter";
     entry_data := data |}.

Lemma unique_id_of_inj d1 d2 :
  unique_id_of d1 = unique_id_of d2 -> CONF_USERNAME d1 = CONF_USERNAME d2.
Proof. unfold unique_id_of. apply String.app_inj. Qed.

Lemma existsb_has_unique_id uid entries :
  existsb (has_unique_id uid) entries = true <-> uid ∈ unique_id <$> entries.
Proof.
  rewrite existsb_exists, list_elem_of_fmap. unfold has_unique_id. split.
  - intros (e & Hin%list_elem_of_In & He%bool_decide_eq_true). by exists e.
  - intros (e & -> & Hin). exists e.
    split; [by apply list_elem_of_In|by apply bool_decide_eq_true].
Qed.

(** The step on a submitted form, by what the login call does. *)
Lemma async_step_user_cases self entries api data :
  (login api (CONF_USERNAME data) (CONF_PASSWORD data) = Ok true
   /\ async_step_user self entries api (Some data)
      = (async_set_unique_id self (unique_id_of data),
         if existsb (has_unique_id (Some (unique_id_of data))) entries
         then Raise (AbortFlow "already_configured")
         else Ok (CreateEntry "Discovergy Smart Meter" data)))
  \/ ((login api (CONF_USERNAME data) (CONF_PASSWORD data) = Ok false
       \/ login api (CONF_USERNAME data) (CONF_PASSWORD data)
          = Raise InvalidAuth)
      /\ async_step_user self entries api (Some data)
         = (self, Ok (ShowForm "user" (Some (<["base" := "invalid_auth"]> ∅)))))
  \/ (login api (CONF_USERNAME data) (CONF_PASSWORD data) = Raise CannotConnect
      /\ async_step_user self entries api (Some data)
         = (self,
            Ok (ShowForm "user" (Some (<["base" := "cannot_connect"]> ∅)))))
  \/ ((exists e, login api (CONF_USERNAME data) (CONF_PASSWORD data) = Raise e
                 /\ e <> CannotConnect /\ e <> InvalidAuth)
      /\ async_step_user self entries api (Some data)
         = (self, Ok (ShowForm "user" (Some (<["base" := "unknown"]> ∅))))).
Proof.
  unfold async_step_user, _validate_input, _validate_credentials,
    _abort_if_unique_id_configured.
  destruct (login api (CONF_USERNAME data) (CONF_PASSWORD data))
    as [[|]|e]; cbn.
  - left. split; [done|]. by destruct (existsb _ entries).
  - right; left. split; [by left|done].
  - destruct e; cbn;
      try (right; right; right; split; [by eexists|done]).
    + right; right; left. done.
    + right; left. split; [by right|done].
Qed.

(** X1: of the exceptions that derive from [Exception], which are the
    ones of [exn] and the ones that [except Exception] takes, none that the
    login call raises leaves the step: each ends in a form. The one such
    exception that the step itself raises is [AbortFlow] with the reason
    ["already_configured"], and only for a submitted form whose login
    succeeded and whose identity is already stored. *)
Theorem step_raises_only_abort self entries api input e :
  (async_step_user self entries api input).2 = Raise e ->
  e = AbortFlow "already_configured"
  /\ exists data,
       input = Some data
       /\ login api (CONF_USERNAME data) (CONF_PASSWORD data) = Ok true
       /\ Some (unique_id_of data) ∈ unique_id <$> entries.
Proof.
  destruct input as [data|]; [|discriminate].
  destruct (async_step_user_cases self entries api data)
    as [[Hl ->]|[[_ ->]|[[_ ->]|[_ ->]]]]; try discriminate.
  cbn [snd].
  destruct (existsb _ entries) eqn:Hex; [|discriminate].
  intros [= <-]. split; [done|]. exists data.
  split; [done|]. split; [done|]. by apply existsb_has_unique_id.
Qed.

Lemma step_raises_only_abort_witness :
  AbortFlow "already_configured" = AbortFlow "already_configured"
  /\ exists data,
       Some Fixtures.alice_again = Some data
       /\ login (Fixtures.login_only (Ok true))
            (CONF_USERNAME data) (CONF_PASSWORD data) = Ok true
       /\ Some (unique_id_of data) ∈ unique_id <$> [Fixtures.alice_entry].
Proof.
  exact (step_raises_only_abort new_flow [Fixtures.alice_entry]
           (Fixtures.login_only (Ok true)) (Some Fixtures.alice_again)
           (AbortFlow "already_configured") eq_refl).
Defined.



(** X3: the step creates an entry exactly when the login call returns a
    truthy response and no stored entry has the identity of the username;
    the entry then has the title ["Discovergy Smart Meter"], the submitted
    data as they are, and the flow carries the identity
    [discovergy_smart_meter_] followed by the username. *)
Theorem entry_created_iff self entries api data f title d :
  async_step_user self entries api (Some data)
    = (f, Ok (CreateEntry title d))
  <-> (f = async_set_unique_id self (unique_id_of data)
       /\ title = "Discovergy Smart Meter" /\ d = data
       /\ login api (CONF_USERNAME data) (CONF_PASSWORD data) = Ok true
       /\ Some (unique_id_of data) ∉ unique_id <$> entries).
Proof.
  rewrite <- existsb_has_unique_id.
  destruct (async_step_user_cases self entries api data)
    as [[Hl ->]|[[Hl ->]|[[Hl ->]|[Hl ->]]]].
  - destruct (existsb _ entries); split.
    + discriminate.
    + intros (_ & _ & _ & _ & H). by destruct H.
    + intros [= <- <- <-]. done.
    + intros (-> & -> & -> & _). done.
  - split; [discriminate|]. intros (_ & _ & _ & H & _).
    destruct Hl as [Hl|Hl]; congruence.
  - split; [discriminate|]. intros (_ & _ & _ & H & _). congruence.
  - split; [discriminate|]. intros (_ & _ & _ & H & _).
    destruct Hl as (e & Hl & _). congruence.
Qed.

Lemma entry_created_iff_witness :
  async_step_user new_flow [] (Fixtures.login_only (Ok true))
    (Some Fixtures.alice)
  = (async_set_unique_id new_flow (unique_id_of Fixtures.alice),
     Ok (CreateEntry "Discovergy Smart Meter" Fixtures.alice)).
Proof.
  apply (proj2 (entry_created_iff new_flow []
                  (Fixtures.login_only (Ok true)) Fixtures.alice
                  _ _ _)).
  repeat split; try reflexivity. apply not_elem_of_nil.
Defined.

(** One submission either stores the entry of its data, or leaves the
    entries as they are and creates nothing. *)
Lemma setup_cases entries api data :
  (login api (CONF_USERNAME data) (CONF_PASSWORD data) = Ok true
   /\ (Some (unique_id_of data) ∉ unique_id <$> entries)
   /\ setup entries api data
      = (entries ++ [entry_of data], Created (entry_of data)))
  \/ ((login api (CONF_USERNAME data) (CONF_PASSWORD data) <> Ok true
       \/ Some (unique_id_of data) ∈ unique_id <$> entries)
      /\ (setup entries api data).1 = entries
      /\ forall e, (setup entries api data).2 <> Created e).
Proof.
  rewrite <- existsb_has_unique_id. unfold setup.
  destruct (async_step_user_cases new_flow entries api data)
    as [[Hl ->]|[[Hl ->]|[[Hl ->]|[Hl ->]]]].
  - destruct (existsb _ entries).
    + right. split; [by right|]. done.
    + left. split; [done|]. split; [by intros [=]|done].
  - right. split; [|done]. left. destruct Hl as [Hl|Hl]; congruence.
  - right. split; [|done]. left. congruence.
  - right. split; [|done]. left. destruct Hl as (e & Hl & _). congruence.
Qed.

Lemma setup_well_kept entries api data :
  well_kept entries -> well_kept (setup entries api data).1.
Proof.
  intros [Hnd Hown].
  destruct (setup_cases entries api data)
    as [(_ & Hfresh & ->)|(_ & -> & _)]; [|done].
  cbn [fst]. split.
  - rewrite fmap_app. apply NoDup_app. split; [done|]. split.
    + intros uid Hin Hin'. cbn in Hin'.
      apply list_elem_of_singleton in Hin' as ->. done.
    + apply NoDup_singleton.
  - apply Forall_app. split; [done|]. by apply Forall_singleton.
Qed.

(** X4: entries that are stored each under the identity of its own
    username, no identity twice, stay so through any sequence of
    submissions, whatever the API does at each; the entries there were are
    kept, in place, and each entry that is new is the entry of a submission
    whose login call returned a truthy response. *)
Theorem identities_stay_distinct entries submissions :
  well_kept entries ->
  well_kept (submit_all entries submissions)
  /\ entries `prefix_of` (submit_all entries submissions)
  /\ forall e,
       e ∈ submit_all entries submissions ->
       e ∈ entries
       \/ exists sub,
            sub ∈ submissions
            /\ e = entry_of sub.2
            /\ login sub.1 (CONF_USERNAME sub.2) (CONF_PASSWORD sub.2)
               = Ok true.
Proof.
  unfold submit_all.
  induction submissions as [|[api data] subs IH] using rev_ind; intros Hwk.
  - split; [done|]. split; [done|]. by left.
  - rewrite foldl_app. cbn [foldl fst snd].
    destruct (IH Hwk) as (Hwk' & Hpre & Hnew).
    set (es := foldl _ entries subs) in *.
    split; [by apply setup_well_kept|].
    destruct (setup_cases es api data)
      as [(Hl & _ & ->)|(_ & -> & _)]; cbn [fst].
    + split; [by apply prefix_app_r|].
      intros e [He|He%list_elem_of_singleton]%elem_of_app.
      * destruct (Hnew e He) as [?|(sub & Hsub & ? & ?)]; [by left|].
        right. exists sub. split; [|done]. apply elem_of_app. by left.
      * right. exists (api, data). split; [|done].
        apply elem_of_app. right. left.
    + split; [done|]. intros e He.
      destruct (Hnew e He) as [?|(sub & Hsub & ? & ?)]; [by left|].
      right. exists sub. split; [|done]. apply elem_of_app. by left.
Qed.

Lemma identities_stay_distinct_witness :
  well_kept (submit_all []
               [(Fixtures.login_only (Ok true), Fixtures.alice);
                (Fixtures.login_only (Ok true), Fixtures.alice_again)]).
Proof.
  refine (proj1 (identities_stay_distinct [] _ _)).
  split; constructor.
Defined.

(** X5: the identity tells usernames apart. When the stored entries are
    each under the identity of its own username and none has the username
    that is submitted, valid credentials always create the entry, whatever
    else is stored. *)
Theorem other_usernames_do_not_block entries api data :
  Forall (fun e => unique_id e = Some (unique_id_of (entry_data e))) entries ->
  Forall (fun e => CONF_USERNAME (entry_data e) <> CONF_USERNAME data)
    entries ->
  login api (CONF_USERNAME data) (CONF_PASSWORD data) = Ok true ->
  setup entries api data
  = (entries ++ [entry_of data], Created (entry_of data)).
Proof.
  intros Hown Hother Hl.
  destruct (setup_cases entries api data)
    as [(_ & _ & ->)|([Hne|Hin] & _)]; [done|done|].
  exfalso. apply list_elem_of_fmap in Hin as (e & Huid & He).
  rewrite (proj1 (Forall_forall _ _) Hown e He) in Huid.
  assert (Hsame : unique_id_of (entry_data e) = unique_id_of data)
    by congruence.
  apply unique_id_of_inj in Hsame.
  by apply (proj1 (Forall_forall _ _) Hother e He).
Qed.

Lemma other_usernames_do_not_block_witness :
  setup [Fixtures.alice_entry] (Fixtures.login_only (Ok true)) Fixtures.bob
  = ([Fixtures.alice_entry; entry_of Fixtures.bob],
     Created (entry_of Fixtures.bob)).
Proof.
  apply (other_usernames_do_not_block [Fixtures.alice_entry]
           (Fixtures.login_only (Ok true)) Fixtures.bob).
  - repeat constructor.
  - repeat constructor. discriminate.
  - reflexivity.
Defined.

End ConfigFlowMore.


(** ** More on the sampler *)

Module SamplerMore.
Import Sensor SamplerSpec FeedSpec SamplerFacts.

(** *** What the sort decides *)



Lemma sample_of_present d t vs :
  time d = Some t -> values d = Some vs -> sample_of d = (t, vs).
Proof. intros Ht Hv. unfold sample_of. by rewrite Ht, Hv. Qed.

(** X6: [time_sorted] returns, for a feed in which every sample has its
    time and its values, all the samples of the feed and no other, newest
    first; and it raises, and then [KeyError], exactly when a sample lacks
    one of the two fields. *)
Theorem time_sorted_spec l :
  (forall data,
      time_sorted l = Ok data ->
      Permutation data (map sample_of l)
      /\ StronglySorted descending data
      /\ Forall (fun d => exists t vs,
                   time d = Some t /\ values d = Some vs
                   /\ sample_of d = (t, vs)) l)
  /\ (forall e,
        time_sorted l = Raise e ->
        e = KeyError /\ Exists (fun d => time d = None \/ values d = None) l)
  /\ (Exists (fun d => time d = None \/ values d = None) l ->
      time_sorted l = Raise KeyError).
Proof.
  unfold time_sorted. split; [|split].
  - intros data Hd.
    destruct (comprehension_cases l) as [Hc|[Hc _]]; rewrite Hc in Hd;
      [|discriminate].
    injection Hd as <-.
    split; [apply sort_desc_perm|]. split; [apply sort_desc_sorted|].
    apply Forall_forall. intros d Hin.
    destruct (time d) as [t|] eqn:Ht; [destruct (values d) as [vs|] eqn:Hv|].
    + exists t, vs. by rewrite (sample_of_present d t vs).
    + rewrite comprehension_missing_field in Hc; [discriminate|].
      apply Exists_exists. exists d. auto.
    + rewrite comprehension_missing_field in Hc; [discriminate|].
      apply Exists_exists. exists d. auto.
  - intros e He.
    destruct (comprehension_cases l) as [Hc|[Hc Hex]]; rewrite Hc in He;
      [discriminate|].
    injection He as <-. done.
  - intros Hex. by rewrite (comprehension_missing_field l Hex).
Qed.

Lemma time_sorted_spec_witness :
  time_sorted [Fixtures.raw 1 "power" 480; {| time := None; values := None |}]
  = Raise KeyError.
Proof.
  apply (proj2 (proj2 (time_sorted_spec _))).
  apply Exists_cons_tl, Exists_cons_hd. left. reflexivity.
Defined.

(** *** The feeds that an update can read *)

Lemma int_mul_float_raises z f e :
  int_mul_float z f = Raise e -> e = OverflowError.
Proof.
  unfold int_mul_float, float_of_int.
  destruct (binary_normalize prec emax z 0 false); cbn; congruence.
Qed.

(** The reading is selected when the sorted feed has the samples that the
    sensor needs, each with its measurement; otherwise an exception that
    the update catches is raised. *)
Lemma select_reading_cases self sorted :
  (exists e,
      select_reading self sorted = Raise e /\ caught e = true
      /\ ((length sorted < needed self)%nat
          \/ Exists (fun s : sample => s.2 !! api_sensor_type self = None)
               (take (needed self) sorted)))
  \/ (exists reading,
        select_reading self sorted = Ok reading
        /\ (needed self <= length sorted)%nat
        /\ Forall (fun s : sample => s.2 !! api_sensor_type self <> None)
             (take (needed self) sorted)).
Proof.
  unfold select_reading, needed, index.
  destruct (sensor_type self).
  - destruct sorted as [|s1 [|s2 rest]]; cbn [lookup list_lookup take length];
      cbn [mbind result_bind].
    + left. exists IndexError. repeat split. left. lia.
    + left. destruct (s1.2 !! api_sensor_type self);
        [exists IndexError|exists KeyError]; repeat split; left; lia.
    + destruct (s1.2 !! api_sensor_type self) as [v1|] eqn:E1.
      * destruct (s2.2 !! api_sensor_type self) as [v2|] eqn:E2.
        -- right. exists (v1 - v2). split; [done|]. split; [lia|].
           repeat constructor; congruence.
        -- left. exists KeyError. repeat split. right.
           apply Exists_cons_tl, Exists_cons_hd. done.
      * left. exists KeyError. repeat split. right.
        apply Exists_cons_hd. done.
  - destruct sorted as [|s1 rest]; cbn [lookup list_lookup take length];
      cbn [mbind result_bind].
    + left. exists IndexError. repeat split. left. lia.
    + destruct (s1.2 !! api_sensor_type self) as [v1|] eqn:E1.
      * right. exists v1. split; [done|]. split; [lia|].
        repeat constructor; congruence.
      * left. exists KeyError. repeat split. right.
        apply Exists_cons_hd. done.
Qed.

Lemma not_Exists_of_Forall {A} (P : A -> Prop) l :
  Forall (fun x => ~ P x) l -> ~ Exists P l.
Proof.
  intros Hall Hex. apply Exists_exists in Hex as (x & Hx & HP).
  exact (proj1 (Forall_forall _ _) Hall x Hx HP).
Qed.

(** X7: once the API has answered, the update ends with a warning exactly
    when the feed is unreadable for the sensor: a sample without time or
    values, fewer samples than the sensor reads (two for energy, one for
    power), or the measurement missing from a sample it reads. The sensor
    is then what it was. With a readable feed the new state is the product
    of the selected reading by the scale, and the update warns of
    nothing. *)
Theorem update_warns_iff_unreadable self api now l :
  answers api self now l ->
  ((async_update self api now).2 = Warned <-> unreadable self l)
  /\ (unreadable self l -> async_update self api now = (self, Warned))
  /\ (~ unreadable self l ->
      exists reading,
        select_reading self (sort_desc (map sample_of l)) = Ok reading
        /\ new_state self api now = int_mul_float reading (_scale self)).
Proof.
  intros Hans.
  pose proof (new_state_answered _ _ _ _ Hans) as Hn. unfold time_sorted in Hn.
  assert (Hcases :
    (unreadable self l /\ async_update self api now = (self, Warned))
    \/ (~ unreadable self l
        /\ (async_update self api now).2 <> Warned
        /\ exists reading,
             select_reading self (sort_desc (map sample_of l)) = Ok reading
             /\ new_state self api now = int_mul_float reading (_scale self))).
  { destruct (comprehension_cases l) as [Hc|[Hc Hex]]; rewrite Hc in Hn.
    - cbn [mbind result_bind] in Hn.
      destruct (select_reading_cases self (sort_desc (map sample_of l)))
        as [(e & Hsel & He & Hfault)|(reading & Hsel & Hlen & Hkeys)];
        rewrite Hsel in Hn; cbn [mbind result_bind] in Hn.
      + left. split.
        * right. rewrite sort_desc_length, length_map in Hfault. done.
        * by rewrite (async_update_raised _ _ _ _ Hn), He.
      + right. split; [|split].
        * intros [Hex|[Hshort|Hkey]].
          -- rewrite (comprehension_missing_field l Hex) in Hc. discriminate.
          -- rewrite sort_desc_length, length_map in Hlen. lia.
          -- by apply (not_Exists_of_Forall _ _ Hkeys).
        * destruct (int_mul_float reading (_scale self)) as [f|e] eqn:Hm.
          -- by rewrite (async_update_published _ _ _ _ Hn).
          -- rewrite (async_update_raised _ _ _ _ Hn).
             by rewrite (int_mul_float_raises _ _ _ Hm).
        * by exists reading.
    - left. split; [by left|].
      by rewrite (async_update_raised _ _ _ _ Hn). }
  split; [|split].
  - split.
    + intros Hw. destruct Hcases as [[? _]|(_ & Hnw & _)]; done.
    + intros Hu. destruct Hcases as [[_ ->]|[? _]]; done.
  - intros Hu. destruct Hcases as [[_ ?]|[? _]]; done.
  - intros Hu. destruct Hcases as [[? _]|(_ & _ & ?)]; done.
Qed.

Lemma update_warns_iff_unreadable_witness :
  async_update Fixtures.power_sensor (Fixtures.feed [Fixtures.bare 7]) 1000
  = (Fixtures.power_sensor, Warned).
Proof.
  refine (proj1 (proj2 (update_warns_iff_unreadable Fixtures.power_sensor
                          (Fixtures.feed [Fixtures.bare 7]) 1000
                          [Fixtures.bare 7] _)) _).
  - split; [exists true|]; reflexivity.
  - right; right. apply Exists_cons_hd. reflexivity.
Defined.

(** *** Exceptions of the API *)

(** X8: when the login call raises, or returns and the readings call
    raises, the update requests nothing further and the sensor is what it
    was. A [ValueError], a [KeyError] or an [IndexError] is swallowed with
    a warning; every other exception, a connection error or a timeout for
    one, leaves [async_update]. *)
Theorem api_exception_in_update self api now e :
  login api (username self) (password self) = Raise e
  \/ ((exists b, login api (username self) (password self) = Ok b)
      /\ get_readings api (meter_id self) (now - 6 * 60 * 1000) now
           "three_minutes" (api_sensor_type self) = Raise e) ->
  new_state self api now = Raise e
  /\ (e = ValueError \/ e = KeyError \/ e = IndexError ->
      async_update self api now = (self, Warned))
  /\ (e <> ValueError -> e <> KeyError -> e <> IndexError ->
      async_update self api now = (self, Propagated e)).
Proof.
  intros H.
  assert (Hn : new_state self api now = Raise e).
  { unfold new_state. destruct H as [->|[[b ->] Hr]]; [done|].
    cbn [mbind result_bind]. by rewrite Hr. }
  split; [exact Hn|]. rewrite (async_update_raised _ _ _ _ Hn). split.
  - intros [->|[->| ->]]; reflexivity.
  - intros H1 H2 H3. destruct e; try reflexivity; congruence.
Qed.

Lemma api_exception_in_update_witness :
  async_update Fixtures.energy_sensor
    (Fixtures.client (Raise ConnectionError) (Ok None) (Ok [])) 1000
  = (Fixtures.energy_sensor, Propagated ConnectionError)
  /\ async_update Fixtures.energy_sensor
       (Fixtures.client (Ok true) (Ok None) (Raise ValueError)) 1000
     = (Fixtures.energy_sensor, Warned).
Proof.
  split.
  - apply (api_exception_in_update Fixtures.energy_sensor
             (Fixtures.client (Raise ConnectionError) (Ok None) (Ok []))
             1000 ConnectionError (or_introl eq_refl)); discriminate.
  - apply (api_exception_in_update Fixtures.energy_sensor
             (Fixtures.client (Ok true) (Ok None) (Raise ValueError))
             1000 ValueError).
    + right. split; [exists true|]; reflexivity.
    + left. reflexivity.
Defined.

(** X9: an update reads the API through the login call, of which it
    ignores the response, and through one readings call, for the sensor's
    own meter and measurement over the six minutes before [now]: two APIs
    whose login calls both return, whatever they return, and that agree on
    that one readings call give the same update. *)
Theorem update_reads_one_query self api api' now :
  (exists b b',
      login api (username self) (password self) = Ok b
      /\ login api' (username self) (password self) = Ok b') ->
  get_readings api (meter_id self) (now - 360000) now "three_minutes"
    (api_sensor_type self)
  = get_readings api' (meter_id self) (now - 360000) now "three_minutes"
      (api_sensor_type self) ->
  async_update self api now = async_update self api' now.
Proof.
  intros (b & b' & Hl & Hl') Hr.
  unfold async_update, new_state. rewrite Hl, Hl'.
  cbn [mbind result_bind].
  change (6 * 60 * 1000) with 360000. by rewrite Hr.
Qed.

Lemma update_reads_one_query_witness :
  async_update Fixtures.power_sensor
    (Fixtures.client (Ok true) (Ok None) (Ok [Fixtures.raw 1 "power" 480])) 7
  = async_update Fixtures.power_sensor
      (Fixtures.client (Ok false) (Raise ConnectionError)
         (Ok [Fixtures.raw 1 "power" 480])) 7.
Proof.
  apply update_reads_one_query; [|reflexivity].
  exists true, false. split; reflexivity.
Defined.

(** *** The state over several polls *)

Lemma new_state_set_state self st api now :
  new_state (set_state self st) api now = new_state self api now.
Proof. reflexivity. Qed.

Lemma set_state_set_state self st st' :
  set_state (set_state self st) st' = set_state self st'.
Proof. reflexivity. Qed.

Lemma poll_all_app self polls polls' :
  poll_all self (polls ++ polls') = poll_all (poll_all self polls) polls'.
Proof. unfold poll_all. apply foldl_app. Qed.

Lemma poll_all_failing self polls :
  Forall (fun poll => exists e, new_state self poll.1 poll.2 = Raise e) polls ->
  poll_all self polls = self.
Proof.
  intros Hall. apply poll_all_unsuccessful.
  eapply Forall_impl; [exact Hall|].
  intros [api now] [e He]. cbn [fst snd] in *.
  rewrite (async_update_raised _ _ _ _ He). cbn. by destruct (caught e).
Qed.

(** X10: the state is the one of the last update that succeeded. The
    value that a poll computes does not depend on the state or on the polls
    before it, and a poll that fails, caught or not, erases nothing: after
    any polls, a poll that computes [f], and polls that fail, the sensor is
    the sensor it was with the state [f]. *)
Theorem last_successful_poll_wins self before api now f after :
  new_state self api now = Ok f ->
  Forall (fun poll => exists e, new_state self poll.1 poll.2 = Raise e)
    after ->
  poll_all self (before ++ (api, now) :: after) = set_state self f
  /\ state (poll_all self (before ++ (api, now) :: after)) = Some f.
Proof.
  intros Hn Hfail.
  assert (H : poll_all self (before ++ (api, now) :: after) = set_state self f).
  { rewrite poll_all_app. change ((api, now) :: after)
      with ([(api, now)] ++ after). rewrite poll_all_app.
    assert (Hstep : poll_all (poll_all self before) [(api, now)]
                    = set_state self f).
    { unfold poll_all at 1. cbn [foldl fst snd].
      destruct (poll_all_state self before) as [->|[g ->]].
      - by rewrite (async_update_published _ _ _ _ Hn).
      - rewrite (async_update_published (set_state self g) api now f Hn).
        reflexivity. }
    rewrite Hstep. apply poll_all_failing.
    eapply Forall_impl; [exact Hfail|]. intros poll [e He]. by exists e. }
  by rewrite H.
Qed.

Lemma last_successful_poll_wins_witness :
  state (poll_all Fixtures.power_sensor
           ([(Fixtures.feed [Fixtures.raw 1 "power" 480], 5)]
            ++ (Fixtures.feed [Fixtures.raw 2 "power" 500], 9)
               :: [(Fixtures.feed [], 12)]))
  = Some 0.5%float.
Proof.
  refine (proj2 (last_successful_poll_wins Fixtures.power_sensor
                   [(Fixtures.feed [Fixtures.raw 1 "power" 480], 5)]
                   (Fixtures.feed [Fixtures.raw 2 "power" 500]) 9
                   0.5%float [(Fixtures.feed [], 12)] _ _)).
  - vm_compute. reflexivity.
  - repeat constructor. exists IndexError. reflexivity.
Defined.

(** X11: polling changes the state and nothing else: after any polls the
    sensor has the unique id, the device information, the name, the unit,
    the device class, the location attribute, the scale and the kind that
    it had. *)
Theorem polling_changes_state_only DOMAIN NAME MANUFACTURER self polls :
  Entity.unique_id (poll_all self polls) = Entity.unique_id self
  /\ Entity.device_info DOMAIN NAME MANUFACTURER (poll_all self polls)
     = Entity.device_info DOMAIN NAME MANUFACTURER self
  /\ Entity.name (poll_all self polls) = Entity.name self
  /\ Entity.unit_of_measurement (poll_all self polls)
     = Entity.unit_of_measurement self
  /\ Entity.device_class (poll_all self polls) = Entity.device_class self
  /\ Entity.device_state_attributes (poll_all self polls)
     = Entity.device_state_attributes self
  /\ _scale (poll_all self polls) = _scale self
  /\ sensor_type (poll_all self polls) = sensor_type self.
Proof.
  destruct (poll_all_state self polls) as [->|[f ->]]; repeat split.
Qed.

(** *** The energy reading *)



End SamplerMore.


(** ** More on discovery *)

Module DiscoveryMore.
Import Sensor DiscoveryFacts.

(** *** Strings *)

Lemma list_ascii_of_string_app s1 s2 :
  String.list_ascii_of_string (s1 +:+ s2)
  = String.list_ascii_of_string s1 ++ String.list_ascii_of_string s2.
Proof. induction s1 as [|c s1 IH]; [done|]. simpl. f_equal. exact IH. Qed.

Lemma list_ascii_of_string_inj s1 s2 :
  String.list_ascii_of_string s1 = String.list_ascii_of_string s2 -> s1 = s2.
Proof.
  intros H. rewrite <- (String.string_of_list_ascii_of_string s1),
    <- (String.string_of_list_ascii_of_string s2). by rewrite H.
Qed.

(** The unique id tells the meter id and the kind apart. *)
Lemma unique_id_parts s1 s2 k1 k2 :
  s1 +:+ ("_" +:+ Entity.conf k1) = s2 +:+ ("_" +:+ Entity.conf k2) ->
  s1 = s2 /\ k1 = k2.
Proof.
  intros H. apply (f_equal String.list_ascii_of_string) in H.
  rewrite !list_ascii_of_string_app in H.
  destruct k1, k2; cbn in H.
  - apply app_inv_tail in H. by apply list_ascii_of_string_inj in H.
  - apply (f_equal (@rev _)) in H. rewrite !rev_app_distr in H.
    discriminate.
  - apply (f_equal (@rev _)) in H. rewrite !rev_app_distr in H.
    discriminate.
  - apply app_inv_tail in H. by apply list_ascii_of_string_inj in H.
Qed.

(** *** The dictionary of a listing without repeated ids *)


Section Setup.
Variable SUPPORTED_METER_TYPES : list string.

Local Abbreviation supported := (supported SUPPORTED_METER_TYPES).
Local Abbreviation meters_by_id := (meters_by_id SUPPORTED_METER_TYPES).
Local Abbreviation async_setup_entry :=
  (async_setup_entry SUPPORTED_METER_TYPES).
Local Abbreviation user entry :=
  (ConfigFlow.CONF_USERNAME (ConfigFlow.entry_data entry)).
Local Abbreviation pass entry :=
  (ConfigFlow.CONF_PASSWORD (ConfigFlow.entry_data entry)).
Local Abbreviation is_supported := (fun m : meter => supported m = true).


(** X13: the setup raises exactly when the login call raises, or returns
    and the listing call raises, and then the same exception; it ignores
    what the login call returns: two APIs whose login calls return and that
    list the same give the same result. *)
Theorem setup_raises_with_the_api api entry :
  (forall e,
      async_setup_entry api entry = Raise e
      <-> login api (user entry) (pass entry) = Raise e
          \/ ((exists b, login api (user entry) (pass entry) = Ok b)
              /\ get_meters api = Raise e))
  /\ (forall api' b b',
        login api (user entry) (pass entry) = Ok b ->
        login api' (user entry) (pass entry) = Ok b' ->
        get_meters api = get_meters api' ->
        async_setup_entry api entry = async_setup_entry api' entry).
Proof.
  unfold Sensor.async_setup_entry. split.
  - intros e.
    destruct (login api (user entry) (pass entry)) as [b|e'];
      cbn [mbind result_bind].
    + destruct (get_meters api) as [[[|m listing]|]|e'];
        cbn [mbind result_bind]; split; try discriminate.
      * intros [?|[_ ?]]; discriminate.
      * intros [?|[_ ?]]; discriminate.
      * intros [?|[_ ?]]; discriminate.
      * intros [= ->]. right. split; [by exists b|done].
      * intros [?|[_ [= ->]]]; [discriminate|done].
    + split; [intros [= ->]; by left|].
      intros [[= ->]|[[b ?] _]]; [done|discriminate].
  - intros api' b b' -> -> ->. reflexivity.
Qed.


(** X14: once the API has listed meters, the setup returns True exactly
    when the listing is not empty, and adds no entity exactly when no entry
    of the listing is supported; so a listing of unsupported meters only
    is a success with no entity. *)
Theorem setup_success_and_entities api entry b listing :
  login api (user entry) (pass entry) = Ok b ->
  get_meters api = Ok (Some listing) ->
  exists r,
    async_setup_entry api entry = Ok r
    /\ (success r = true <-> listing <> [])
    /\ (added r = [] <-> Forall (fun m => supported m = false) listing).
Proof.
  intros Hl Hm. rewrite (async_setup_entry_listed _ _ _ _ _ Hl Hm).
  eexists. split; [reflexivity|].
  assert (Hnone : meters_by_id listing = []
                  <-> Forall (fun m => supported m = false) listing).
  { split.
    - intros Hnil. apply Forall_forall. intros m Hin.
      destruct (supported m) eqn:Hs; [|done].
      assert (Hk : meterId m ∈ (meters_by_id listing).*1)
        by (apply meters_by_id_keys; by exists m).
      rewrite Hnil in Hk. by apply elem_of_nil in Hk.
    - intros Hall. destruct (meters_by_id listing) as [|[k v] d] eqn:Hd;
        [done|].
      assert (Hk : k ∈ (meters_by_id listing).*1) by (rewrite Hd; left).
      apply meters_by_id_keys in Hk as (m & Hin & Hs & _).
      rewrite (proj1 (Forall_forall _ _) Hall m Hin) in Hs. discriminate. }
  destruct listing as [|m listing]; cbn [success added].
  - split; [split; [discriminate|done]|]. split; [constructor|done].
  - split; [split; [discriminate|done]|]. rewrite <- Hnone.
    destruct (meters_by_id (m :: listing)) as [|[k v] d]; [done|].
    split; discriminate.
Qed.




Lemma dict_value_unique {K V : Type} (d : list (K * V)) k v v' :
  NoDup d.*1 -> (k, v) ∈ d -> (k, v') ∈ d -> v = v'.
Proof.
  induction d as [|[k0 v0] d IH]; intros Hnd Hin Hin';
    [by apply elem_of_nil in Hin|].
  rewrite fmap_cons in Hnd. apply NoDup_cons in Hnd as [Hk0 Hnd].
  cbn [fst] in Hk0.
  apply elem_of_cons in Hin as [Heq|Hin];
    apply elem_of_cons in Hin' as [Heq'|Hin']; simplify_eq.
  - done.
  - exfalso. apply Hk0. apply list_elem_of_fmap. by exists (k0, v').
  - exfalso. apply Hk0. apply list_elem_of_fmap. by exists (k0, v).
  - by apply IH.
Qed.

(** X16: when every supported entry of the listing has a meter id, no two
    entities that the setup adds have the same unique id. *)
Theorem added_unique_ids_distinct api entry b listing :
  login api (user entry) (pass entry) = Ok b ->
  get_meters api = Ok (Some listing) ->
  Forall (fun m => supported m = true -> meterId m <> None) listing ->
  exists r,
    async_setup_entry api entry = Ok r
    /\ NoDup (Entity.unique_id <$> added r).
Proof.
  intros Hl Hm Hids.
  destruct (async_setup_entry_added SUPPORTED_METER_TYPES _ _ _ _ Hl Hm)
    as (r & Hr & Hadded).
  exists r. split; [exact Hr|]. rewrite Hadded.
  pose proof (meters_by_id_NoDup SUPPORTED_METER_TYPES listing) as Hnd.
  apply NoDup_fmap_2_strong.
  - intros e e' (k & v & kind & Hin & ->)%entities_for_elem
      (k' & v' & kind' & Hin' & ->)%entities_for_elem Heq.
    unfold Entity.unique_id in Heq. cbn [meter_id sensor_type __init__] in Heq.
    apply unique_id_parts in Heq as [Hk ->].
    assert (Hsome : forall k0 v0,
               (k0, v0) ∈ meters_by_id listing -> k0 <> None).
    { intros k0 v0 H0.
      apply meters_by_id_elem, last_listed_supported in H0
        as (m & Hm0 & Hs & <- & _).
      by apply (proj1 (Forall_forall _ _) Hids m Hm0). }
    assert (k = k') as <-.
    { pose proof (Hsome _ _ Hin). pose proof (Hsome _ _ Hin').
      destruct k, k'; cbn in Hk; congruence. }
    by rewrite (dict_value_unique _ _ _ _ Hnd Hin Hin').
  - eapply NoDup_fmap_1. by apply entities_for_NoDup.
Qed.

(** X17: every entity that the setup adds names one and the same device:
    its identifiers are the one pair of the domain and the identity
    [discovergy_smart_meter_] followed by the entry's username, the
    identity that the configuration flow registers, whatever the meter;
    only the device name tells the meters apart. *)
Theorem added_share_device DOMAIN NAME MANUFACTURER api entry b listing :
  login api (user entry) (pass entry) = Ok b ->
  get_meters api = Ok (Some listing) ->
  exists r,
    async_setup_entry api entry = Ok r
    /\ forall e,
         e ∈ added r ->
         Entity.identifiers (Entity.device_info DOMAIN NAME MANUFACTURER e)
         = {[ (DOMAIN,
               ConfigFlow.unique_id_of (ConfigFlow.entry_data entry)) ]}
         /\ Entity.manufacturer
              (Entity.device_info DOMAIN NAME MANUFACTURER e) = MANUFACTURER
         /\ exists m,
              m ∈ listing /\ supported m = true
              /\ Entity.device_name
                   (Entity.device_info DOMAIN NAME MANUFACTURER e)
                 = NAME +:+ ("_" +:+ Entity.format (meterId m)).
Proof.
  intros Hl Hm.
  destruct (async_setup_entry_added SUPPORTED_METER_TYPES _ _ _ _ Hl Hm)
    as (r & Hr & Hadded).
  exists r. split; [exact Hr|]. rewrite Hadded.
  intros e (k & v & kind & Hin & ->)%entities_for_elem.
  split; [reflexivity|]. split; [reflexivity|].
  apply meters_by_id_elem, last_listed_supported in Hin
    as (m & Hm0 & Hs & <- & _).
  by exists m.
Qed.

End Setup.

Lemma setup_raises_with_the_api_witness :
  async_setup_entry ["ELECTRICITY"]
    (Fixtures.client (Ok true) (Raise TimeoutError) (Ok []))
    Fixtures.alice_entry
  = Raise TimeoutError.
Proof.
  apply (proj1 (setup_raises_with_the_api ["ELECTRICITY"]
                  (Fixtures.client (Ok true) (Raise TimeoutError) (Ok []))
                  Fixtures.alice_entry)).
  right. split; [exists true|]; reflexivity.
Defined.

Lemma setup_success_and_entities_witness :
  exists r,
    async_setup_entry ["ELECTRICITY"]
      (Fixtures.listing [Fixtures.gas "g1" "Bonn"]) Fixtures.alice_entry
    = Ok r
    /\ success r = true /\ added r = [].
Proof.
  destruct (setup_success_and_entities ["ELECTRICITY"]
              (Fixtures.listing [Fixtures.gas "g1" "Bonn"])
              Fixtures.alice_entry true [Fixtures.gas "g1" "Bonn"]
              eq_refl eq_refl) as (r & Hr & Hsucc & Hadded).
  exists r. split; [exact Hr|]. split.
  - apply Hsucc. discriminate.
  - apply Hadded. repeat constructor.
Defined.


Lemma added_unique_ids_distinct_witness :
  exists r,
    async_setup_entry ["ELECTRICITY"]
      (Fixtures.listing [Fixtures.electricity "m1" "Aachen";
                         Fixtures.electricity "m2" "Bonn"])
      Fixtures.alice_entry = Ok r
    /\ NoDup (Entity.unique_id <$> added r).
Proof.
  apply (added_unique_ids_distinct ["ELECTRICITY"]
           (Fixtures.listing [Fixtures.electricity "m1" "Aachen";
                              Fixtures.electricity "m2" "Bonn"])
           Fixtures.alice_entry true _ eq_refl eq_refl).
  repeat constructor; discriminate.
Defined.

(** Without a meter id the unique id is built from [None], which is also
    what a meter whose id is the string ["None"] gets. *)
Example unique_id_of_missing_meter_id :
  Entity.unique_id (__init__ "u" "p" None CONF_POWER None)
  = Entity.unique_id (__init__ "u" "p" (Some "None") CONF_POWER None).
Proof. reflexivity. Qed.

Lemma added_share_device_witness :
  exists r,
    async_setup_entry ["ELECTRICITY"]
      (Fixtures.listing [Fixtures.electricity "m1" "Aachen";
                         Fixtures.electricity "m2" "Bonn"])
      Fixtures.alice_entry = Ok r
    /\ Forall (fun e =>
                 Entity.identifiers
                   (Entity.device_info "discovergy" "Discovergy" "Discovergy" e)
                 = {[ ("discovergy",
                       "discovergy_smart_meter_alice@example.org") ]})
         (added r).
Proof.
  destruct (added_share_device ["ELECTRICITY"]
              "discovergy" "Discovergy" "Discovergy"
              (Fixtures.listing [Fixtures.electricity "m1" "Aachen";
                                 Fixtures.electricity "m2" "Bonn"])
              Fixtures.alice_entry true _ eq_refl eq_refl)
    as (r & Hr & Hdev).
  exists r. split; [exact Hr|].
  apply Forall_forall. intros e He. exact (proj1 (Hdev e He)).
Defined.

End DiscoveryMore.
